(** * TinyLink: link registry and redirect engine (index.js)

    A shallow embedding of the Express handlers of [index.js] and of the
    parts of their environment they rely on (JavaScript regular expressions,
    [Buffer.toString('base64url')], the Prisma [link] table), followed by the
    properties of the registry stated over that embedding.

    Conventions.
    - A JavaScript string is the list of its UTF-16 code units ([jsstring]).
    - The [link] table is a finite map from [shortCode] (its unique column)
      to rows.
    - Everything a handler reads from outside (the clock, the random
      sources, the identifier the database assigns) is an explicit argument.
    - A response is recorded as the call the handler makes on [res]. *)

From Stdlib Require Import String Ascii.
From stdpp Require Import base numbers list sorting gmap.

Local Open Scope N_scope.

(** ** JavaScript strings *)

Abbreviation jsstring := (list N).

(** Code units of an ASCII literal. *)
Fixpoint js (s : string) : jsstring :=
  match s with
  | EmptyString => []
  | String a s' => N_of_ascii a :: js s'
  end.

(** [ToBoolean] on a value that is either [undefined] or a string. *)
Definition truthy (v : option jsstring) : bool :=
  match v with
  | None => false
  | Some [] => false
  | Some (_ :: _) => true
  end.

(** ** Regular expressions

    The two patterns of [index.js] have the form [/^body$/] without the [m]
    flag, so [RegExp.prototype.test] succeeds exactly when the whole string
    is matched by [body].  [pattern] is the syntax of such a body; it is
    compiled to a core expression over code-unit predicates, which is run by
    derivatives. *)

Module Regex.

(** Members of a character class. *)
Inductive class_item :=
| CChar (c : N)            (* a single character *)
| CRange (lo hi : N)       (* lo-hi *)
| CSpace.                  (* \s *)

Inductive pattern :=
| PChar (c : N)                                   (* a pattern character *)
| PDot                                            (* . *)
| PClass (negated : bool) (items : list class_item)  (* [...] and [^...] *)
| PSeq (p1 p2 : pattern)
| POpt (p : pattern)                              (* p? *)
| PStar (p : pattern)                             (* p* *)
| PRepeat (lo hi : nat) (p : pattern).            (* p{lo,hi} *)

Record RegExp := { body : pattern; ignoreCase : bool }.

(** Code units [lo], [lo+1], ..., [hi]. *)
Definition char_range (lo hi : N) : list N :=
  map (fun k => lo + N.of_nat k) (seq 0 (N.to_nat (N.succ hi - lo))).

(** WhiteSpace and LineTerminator code units, the meaning of [\s]. *)
Definition white_space : list N :=
  char_range 9 13 ++ [32; 160; 5760] ++ char_range 8192 8202
    ++ [8232; 8233; 8239; 8287; 12288; 65279].

Definition item_chars (it : class_item) : list N :=
  match it with
  | CChar c => [c]
  | CRange lo hi => char_range lo hi
  | CSpace => white_space
  end.

(** [Canonicalize] without the [u] flag: upper-casing, where a code unit
    of 128 or more never becomes an ASCII one.  Above 127 the patterns
    here only compare against caseless characters, so the mapping is left
    as the identity there. *)
Definition canonicalize (i : bool) (c : N) : N :=
  if i && (97 <=? c) && (c <=? 122) then c - 32 else c.

Definition class_matches (i : bool) (items : list class_item) (c : N) : bool :=
  existsb (fun a => canonicalize i a =? canonicalize i c)
          (flat_map item_chars items).

(** [.] without the [s] flag: anything but a LineTerminator. *)
Definition dot_matches (c : N) : bool :=
  negb ((c =? 10) || (c =? 13) || (c =? 8232) || (c =? 8233)).

(** Core expressions. *)
Inductive regex :=
| Void
| Eps
| Sym (p : N -> bool)
| Cat (r1 r2 : regex)
| Alt (r1 r2 : regex)
| Star (r : regex).

Fixpoint power (n : nat) (r : regex) : regex :=
  match n with
  | O => Eps
  | S n' => Cat r (power n' r)
  end.

Fixpoint compile (i : bool) (p : pattern) : regex :=
  match p with
  | PChar c => Sym (fun x => canonicalize i c =? canonicalize i x)
  | PDot => Sym dot_matches
  | PClass neg items =>
      Sym (fun x => if neg then negb (class_matches i items x)
                    else class_matches i items x)
  | PSeq p1 p2 => Cat (compile i p1) (compile i p2)
  | POpt p => Alt (compile i p) Eps
  | PStar p => Star (compile i p)
  | PRepeat lo hi p =>
      Cat (power lo (compile i p))
          (power (hi - lo) (Alt (compile i p) Eps))
  end.

Fixpoint nullable (r : regex) : bool :=
  match r with
  | Void => false
  | Eps => true
  | Sym _ => false
  | Cat r1 r2 => nullable r1 && nullable r2
  | Alt r1 r2 => nullable r1 || nullable r2
  | Star _ => true
  end.

Fixpoint deriv (c : N) (r : regex) : regex :=
  match r with
  | Void => Void
  | Eps => Void
  | Sym p => if p c then Eps else Void
  | Cat r1 r2 =>
      if nullable r1 then Alt (Cat (deriv c r1) r2) (deriv c r2)
      else Cat (deriv c r1) r2
  | Alt r1 r2 => Alt (deriv c r1) (deriv c r2)
  | Star r1 => Cat (deriv c r1) (Star r1)
  end.

Fixpoint matches (r : regex) (s : jsstring) : bool :=
  match s with
  | [] => nullable r
  | c :: s' => matches (deriv c r) s'
  end.

(** [re.test(s)] for [re = /^body$/flags]. *)
Definition test (re : RegExp) (s : jsstring) : bool :=
  matches (compile (ignoreCase re) (body re)) s.

(** The words of a core expression. *)
Inductive lang : regex -> jsstring -> Prop :=
| lang_eps : lang Eps []
| lang_sym p c : p c = true -> lang (Sym p) [c]
| lang_cat r1 r2 s1 s2 :
    lang r1 s1 -> lang r2 s2 -> lang (Cat r1 r2) (s1 ++ s2)
| lang_alt_l r1 r2 s : lang r1 s -> lang (Alt r1 r2) s
| lang_alt_r r1 r2 s : lang r2 s -> lang (Alt r1 r2) s
| lang_star_nil r : lang (Star r) []
| lang_star_app r s1 s2 :
    lang r s1 -> lang (Star r) s2 -> lang (Star r) (s1 ++ s2).

End Regex.

Import Regex.

Fixpoint pseq (ps : list pattern) (last : pattern) : pattern :=
  match ps with
  | [] => last
  | p :: ps' => PSeq p (pseq ps' last)
  end.

(** [const URL_REGEX = /^https?:\/\/[^\s$.?#].[^\s]*$/i;] *)
Definition URL_REGEX : RegExp :=
  {| body :=
       pseq [ PChar 104; PChar 116; PChar 116; PChar 112; POpt (PChar 115);
              PChar 58; PChar 47; PChar 47;
              PClass true [CSpace; CChar 36; CChar 46; CChar 63; CChar 35];
              PDot ]
            (PStar (PClass true [CSpace]));
     ignoreCase := true |}.

(** [const CODE_REGEX = /^[A-Za-z0-9]{6,8}$/;] *)
Definition CODE_REGEX : RegExp :=
  {| body := PRepeat 6 8 (PClass false [CRange 65 90; CRange 97 122; CRange 48 57]);
     ignoreCase := false |}.

(** ** Code generator *)

(** [Buffer.prototype.toString('base64url')]: the URL-safe alphabet, no
    padding. *)
Definition base64url_alphabet : jsstring :=
  js "ABCDEFGHIJKLMNOPQRSTUVWXYZabcdefghijklmnopqrstuvwxyz0123456789-_".

Definition b64 (i : N) : N := nth (N.to_nat (N.land i 63)) base64url_alphabet 0.

Fixpoint base64url (bs : list N) : jsstring :=
  match bs with
  | [] => []
  | [b0] =>
      let n := N.shiftl b0 16 in
      [b64 (N.shiftr n 18); b64 (N.shiftr n 12)]
  | [b0; b1] =>
      let n := N.lor (N.shiftl b0 16) (N.shiftl b1 8) in
      [b64 (N.shiftr n 18); b64 (N.shiftr n 12); b64 (N.shiftr n 6)]
  | b0 :: b1 :: b2 :: rest =>
      let n := N.lor (N.shiftl b0 16) (N.lor (N.shiftl b1 8) b2) in
      b64 (N.shiftr n 18) :: b64 (N.shiftr n 12) :: b64 (N.shiftr n 6)
        :: b64 n :: base64url rest
  end.

(** [s.replace(/[items]/g, '')]: every code unit in the class is dropped. *)
Definition remove_class (items : list class_item) (s : jsstring) : jsstring :=
  List.filter (fun c => negb (class_matches false items c)) s.

(** One call of the generator reads both random sources once:
    [floor3] is the value of [Math.floor(Math.random() * 3)] and [bytes]
    the buffer returned by [crypto.randomBytes(6)]. *)
Record Draw := { floor3 : N; bytes : list N }.

(** What the two sources can return: [Math.random()] lies in [0, 1), and
    the buffer holds six octets. *)
Definition draw_ok (d : Draw) : Prop :=
  floor3 d < 3 /\ length (bytes d) = 6%nat /\ Forall (fun b => b < 256) (bytes d).

(** [function generateRandomCode()] *)
Definition generateRandomCode (d : Draw) : jsstring :=
  let length := floor3 d + 6 in
  take (N.to_nat length)
       (remove_class [CChar 45; CChar 95] (base64url (bytes d))).

(** ** The link table *)

(** Modelled from the spec: [schema.prisma] (the [Link] model) is not among
    the sources.  Fields and constraints follow section 3 of the
    specification: [shortCode] is the unique column, [createdAt] is set by
    the store at insertion, [lastClickedAt] is absent until the first
    redirect.  Timestamps are clock readings. *)
Record Link := {
  id : N;
  shortCode : jsstring;
  targetUrl : jsstring;
  totalClicks : N;
  createdAt : N;
  lastClickedAt : option N
}.

Abbreviation Store := (gmap jsstring Link).

(** Error codes of [PrismaClientKnownRequestError] the handlers look at;
    [POther] is any other rejection.  The table modelled here is always
    reachable: its operations reject a call only for what the call asks. *)
Inductive PrismaError := P2002 | P2025 | POther.

(** [prisma.link.findUnique({ where: { shortCode } })] *)
Definition findUnique (st : Store) (code : jsstring) : option Link :=
  st !! code.

(** [prisma.link.create({ data: { shortCode, targetUrl, totalClicks } })];
    a missing required field is rejected by the client, a taken
    [shortCode] by the unique constraint. *)
Definition prisma_create (st : Store) (new_id now : N)
    (code : option jsstring) (url : jsstring) (clicks : N)
    : Store * (PrismaError + Link) :=
  match code with
  | None => (st, inl POther)
  | Some c =>
      match st !! c with
      | Some _ => (st, inl P2002)
      | None =>
          let l := {| id := new_id; shortCode := c; targetUrl := url;
                      totalClicks := clicks; createdAt := now;
                      lastClickedAt := None |} in
          (<[c := l]> st, inr l)
      end
  end.

(** [prisma.link.update({ where: { shortCode: code }, data })]: one
    statement on the row, or [P2025] when there is none. *)
Definition prisma_update (st : Store) (code : jsstring) (data : Link -> Link)
    : Store * (PrismaError + Link) :=
  match st !! code with
  | None => (st, inl P2025)
  | Some l => (<[code := data l]> st, inr (data l))
  end.

(** [prisma.link.delete({ where: { shortCode: code } })] *)
Definition prisma_delete (st : Store) (code : jsstring)
    : Store * (PrismaError + Link) :=
  match st !! code with
  | None => (st, inl P2025)
  | Some l => (delete code st, inr l)
  end.

(** [orderBy: { createdAt: 'desc' }] *)
Definition createdAt_desc (a b : Link) : Prop := createdAt b <= createdAt a.

#[global] Instance createdAt_desc_dec : RelDecision createdAt_desc.
Proof. intros a b. unfold createdAt_desc. apply _. Defined.

(** [prisma.link.findMany({ orderBy: { createdAt: 'desc' } })] *)
Definition findMany_createdAt_desc (st : Store) : list Link :=
  merge_sort createdAt_desc (map_to_list st).*2.

(** [data: { totalClicks: { increment: 1 }, lastClickedAt: new Date() }] *)
Definition click (now : N) (l : Link) : Link :=
  {| id := id l; shortCode := shortCode l; targetUrl := targetUrl l;
     totalClicks := totalClicks l + 1; createdAt := createdAt l;
     lastClickedAt := Some now |}.

(** ** Responses *)

Inductive JsonBody :=
| JError (error : string)                       (* { error } *)
| JCreated (message : string) (link : Link)     (* { message, link } *)
| JLink (link : Link)
| JLinks (links : list Link).

Inductive Response :=
| Json (status : nat) (body : JsonBody)         (* res.status(n).json(body) *)
| Send (status : nat) (text : option string)    (* res.status(n).send(text) *)
| Redirect (status : nat) (location : jsstring). (* res.redirect(n, url) *)

Definition status (r : Response) : nat :=
  match r with
  | Json n _ => n
  | Send n _ => n
  | Redirect n _ => n
  end.

Definition err_targetUrl : string :=
  "Invalid or missing targetUrl. Must start with http:// or https://".
Definition err_customCode : string :=
  "Invalid customCode. Must be 6 to 8 characters long and contain only alphanumeric characters (A-Z, a-z, 0-9).".
Definition err_generate : string :=
  "Failed to generate a unique short code. Please try again.".
Definition err_conflict : string :=
  "Conflict: This short code already exists. Please choose a different one.".
Definition err_create : string :=
  "Internal server error while creating the link.".
Definition err_not_found : string := "Link not found.".
Definition err_fetch_stats : string :=
  "Internal server error while fetching link stats.".
Definition err_deleted : string := "Link not found or already deleted.".
Definition err_delete : string :=
  "Internal server error while deleting the link.".
Definition msg_created : string := "Link created successfully.".
Definition txt_not_found : string :=
  "Not Found: The requested short link does not exist or has been deleted.".
Definition txt_redirect_error : string :=
  "Internal Server Error while processing link redirection.".

(** The named failures of the registry, as responses. *)
Definition InvalidTarget : Response := Json 400 (JError err_targetUrl).
Definition InvalidCode : Response := Json 400 (JError err_customCode).
Definition GenerationExhausted : Response := Json 500 (JError err_generate).
Definition CodeConflict : Response := Json 409 (JError err_conflict).

(** ** Handlers *)

(** [ToString] on [undefined] or a string. *)
Definition ToString (v : option jsstring) : jsstring :=
  match v with
  | None => js "undefined"
  | Some s => s
  end.

(** What a request to [POST /api/links] reads besides its body: the random
    draw of the [i]-th generator call, and the identifier and timestamp the
    store gives a new row. *)
Record CreateEnv := { draws : nat -> Draw; new_id : N; now : N }.

(** State of the retry loop when it is left: the flag, the variable
    [shortCode], and the candidates generated so far, oldest first. *)
Record LoopState := {
  foundUnique : bool;
  loop_shortCode : option jsstring;
  generated : list jsstring
}.

(** [for (let i = 0; i < 5; i++) { ... }], with [n] iterations left. *)
Fixpoint retry_loop (st : Store) (draws : nat -> Draw) (i n : nat)
    (shortCode : option jsstring) (tried : list jsstring) : LoopState :=
  match n with
  | O => {| foundUnique := false; loop_shortCode := shortCode;
            generated := tried |}
  | S n' =>
      let shortCode := generateRandomCode (draws i) in
      match findUnique st shortCode with
      | None => {| foundUnique := true; loop_shortCode := Some shortCode;
                   generated := tried ++ [shortCode] |}
      | Some _ =>
          retry_loop st draws (S i) n' (Some shortCode) (tried ++ [shortCode])
      end
  end.

(** Result of one request to [POST /api/links]. *)
Record Outcome := {
  response : Response;
  store : Store;
  candidates : list jsstring      (* the generator's outputs, in order *)
}.

(** Part C of the handler: the insertion and its [catch]. *)
Definition save_link (env : CreateEnv) (st : Store)
    (shortCode : option jsstring) (url : jsstring) (tried : list jsstring)
    : Outcome :=
  match prisma_create st (new_id env) (now env) shortCode url 0 with
  | (st', inr newLink) =>
      {| response := Json 201 (JCreated msg_created newLink);
         store := st'; candidates := tried |}
  | (st', inl P2002) =>
      {| response := CodeConflict; store := st'; candidates := tried |}
  | (st', inl _) =>
      {| response := Json 500 (JError err_create);
         store := st'; candidates := tried |}
  end.

(** [app.post('/api/links', ...)] with [req.body = { targetUrl, customCode }];
    each of the two fields is absent or a string. *)
Definition post_link (env : CreateEnv) (st : Store)
    (targetUrl customCode : option jsstring) : Outcome :=
  if negb (truthy targetUrl) || negb (test URL_REGEX (ToString targetUrl)) then
    {| response := InvalidTarget; store := st; candidates := [] |}
  else
    if truthy customCode then
      if negb (test CODE_REGEX (ToString customCode)) then
        {| response := InvalidCode; store := st; candidates := [] |}
      else save_link env st customCode (ToString targetUrl) []
    else
      let r := retry_loop st (draws env) 0 5 customCode [] in
      if negb (foundUnique r) then
        {| response := GenerationExhausted; store := st;
           candidates := generated r |}
      else save_link env st (loop_shortCode r) (ToString targetUrl) (generated r).

(** [app.get('/api/links', ...)] *)
Definition list_links (st : Store) : Response :=
  Json 200 (JLinks (findMany_createdAt_desc st)).

(** [app.get('/api/links/:code', ...)] *)
Definition get_link (st : Store) (code : jsstring) : Response :=
  match findUnique st code with
  | None => Json 404 (JError err_not_found)
  | Some link => Json 200 (JLink link)
  end.

(** [app.delete('/api/links/:code', ...)] *)
Definition delete_link (st : Store) (code : jsstring) : Response * Store :=
  match prisma_delete st code with
  | (st', inr _) => (Send 204 None, st')
  | (st', inl P2025) => (Json 404 (JError err_deleted), st')
  | (st', inl _) => (Json 500 (JError err_delete), st')
  end.

(** [app.get('/:code', ...)]; [now] is the value of [new Date()]. *)
Definition redirect (now : N) (st : Store) (code : jsstring) : Response * Store :=
  match prisma_update st code (click now) with
  | (st', inr updatedLink) => (Redirect 302 (targetUrl updatedLink), st')
  | (st', inl P2025) => (Send 404 (Some txt_not_found), st')
  | (st', inl _) => (Send 500 (Some txt_redirect_error), st')
  end.

(** ** The registry as a state machine *)

Inductive Request :=
| PostLinks (env : CreateEnv) (targetUrl customCode : option jsstring)
| GetLinks
| GetLink (code : jsstring)
| DeleteLink (code : jsstring)
| GetCode (now : N) (code : jsstring).

Definition handle (req : Request) (st : Store) : Response * Store :=
  match req with
  | PostLinks env targetUrl customCode =>
      let o := post_link env st targetUrl customCode in (response o, store o)
  | GetLinks => (list_links st, st)
  | GetLink code => (get_link st code, st)
  | DeleteLink code => delete_link st code
  | GetCode now code => redirect now st code
  end.

(** Requests served one after the other, each on the store the previous
    one left; the responses come back in the same order. *)
Fixpoint run (reqs : list Request) (st : Store) : list Response * Store :=
  match reqs with
  | [] => ([], st)
  | req :: reqs' =>
      let '(r, st1) := handle req st in
      let '(rs, st2) := run reqs' st1 in
      (r :: rs, st2)
  end.

(** ** Requests in flight

    A handler is an [async] function: it runs until it awaits a Prisma
    call, the database executes that call as one statement, and the handler
    resumes with the result.  Between two awaits of one request the calls
    of other requests may be executed.  A program is a handler seen that
    way: the Prisma call it awaits next, and how it goes on from the
    result. *)

Inductive Prog :=
| Return (r : Response)
| AwaitFindUnique (code : jsstring) (k : option Link -> Prog)
| AwaitCreate (new_id now : N) (code : option jsstring) (url : jsstring)
    (clicks : N) (k : PrismaError + Link -> Prog)
| AwaitUpdate (code : jsstring) (data : Link -> Link)
    (k : PrismaError + Link -> Prog)
| AwaitDelete (code : jsstring) (k : PrismaError + Link -> Prog)
| AwaitFindMany (k : list Link -> Prog).

(** The database executes the awaited call of [p]. *)
Definition step (p : Prog) (st : Store) : Prog * Store :=
  match p with
  | Return r => (Return r, st)
  | AwaitFindUnique code k => (k (findUnique st code), st)
  | AwaitCreate new_id now code url clicks k =>
      let '(st', res) := prisma_create st new_id now code url clicks in
      (k res, st')
  | AwaitUpdate code data k =>
      let '(st', res) := prisma_update st code data in (k res, st')
  | AwaitDelete code k =>
      let '(st', res) := prisma_delete st code in (k res, st')
  | AwaitFindMany k => (k (findMany_createdAt_desc st), st)
  end.

(** One request served with no other in flight. *)
Fixpoint run_alone (p : Prog) (st : Store) : Response * Store :=
  match p with
  | Return r => (r, st)
  | AwaitFindUnique code k => run_alone (k (findUnique st code)) st
  | AwaitCreate new_id now code url clicks k =>
      let '(st', res) := prisma_create st new_id now code url clicks in
      run_alone (k res) st'
  | AwaitUpdate code data k =>
      let '(st', res) := prisma_update st code data in run_alone (k res) st'
  | AwaitDelete code k =>
      let '(st', res) := prisma_delete st code in run_alone (k res) st'
  | AwaitFindMany k => run_alone (k (findMany_createdAt_desc st)) st
  end.

(** The requests in flight, and the order in which the database executes
    their calls: [sched] names, call after call, the request whose awaited
    call is executed next.  A request that has answered, or a number that
    names no request, lets the turn pass. *)
Fixpoint exec (sched : list nat) (pool : list Prog) (st : Store)
    : list Prog * Store :=
  match sched with
  | [] => (pool, st)
  | i :: sched' =>
      match pool !! i with
      | None => exec sched' pool st
      | Some p =>
          let '(p', st') := step p st in
          exec sched' (<[i := p']> pool) st'
      end
  end.

Definition is_return (p : Prog) : bool :=
  match p with
  | Return _ => true
  | _ => false
  end.

(** [app.get('/:code', ...)]: one awaited call. *)
Definition redirect_prog (now : N) (code : jsstring) : Prog :=
  AwaitUpdate code (click now) (fun res =>
    Return (match res with
            | inr updatedLink => Redirect 302 (targetUrl updatedLink)
            | inl P2025 => Send 404 (Some txt_not_found)
            | inl _ => Send 500 (Some txt_redirect_error)
            end)).

(** [app.delete('/api/links/:code', ...)] *)
Definition delete_prog (code : jsstring) : Prog :=
  AwaitDelete code (fun res =>
    Return (match res with
            | inr _ => Send 204 None
            | inl P2025 => Json 404 (JError err_deleted)
            | inl _ => Json 500 (JError err_delete)
            end)).

(** [app.get('/api/links/:code', ...)] *)
Definition get_prog (code : jsstring) : Prog :=
  AwaitFindUnique code (fun link =>
    Return (match link with
            | None => Json 404 (JError err_not_found)
            | Some link => Json 200 (JLink link)
            end)).

(** [app.get('/api/links', ...)] *)
Definition list_prog : Prog :=
  AwaitFindMany (fun allLinks => Return (Json 200 (JLinks allLinks))).

(** Part C of [app.post('/api/links', ...)]. *)
Definition save_prog (env : CreateEnv) (shortCode : option jsstring)
    (url : jsstring) : Prog :=
  AwaitCreate (new_id env) (now env) shortCode url 0 (fun res =>
    Return (match res with
            | inr newLink => Json 201 (JCreated msg_created newLink)
            | inl P2002 => CodeConflict
            | inl _ => Json 500 (JError err_create)
            end)).

(** The retry loop, one awaited [findUnique] per iteration; [found] is the
    rest of the handler once a free candidate is in [shortCode]. *)
Fixpoint retry_prog (draws : nat -> Draw) (i n : nat)
    (found : option jsstring -> Prog) (exhausted : Prog) : Prog :=
  match n with
  | O => exhausted
  | S n' =>
      let shortCode := generateRandomCode (draws i) in
      AwaitFindUnique shortCode (fun existingLink =>
        match existingLink with
        | None => found (Some shortCode)
        | Some _ => retry_prog draws (S i) n' found exhausted
        end)
  end.

(** [app.post('/api/links', ...)] *)
Definition post_prog (env : CreateEnv) (targetUrl customCode : option jsstring)
    : Prog :=
  if negb (truthy targetUrl) || negb (test URL_REGEX (ToString targetUrl)) then
    Return InvalidTarget
  else
    if truthy customCode then
      if negb (test CODE_REGEX (ToString customCode)) then Return InvalidCode
      else save_prog env customCode (ToString targetUrl)
    else
      retry_prog (draws env) 0 5
        (fun shortCode => save_prog env shortCode (ToString targetUrl))
        (Return GenerationExhausted).

Definition handler_prog (req : Request) : Prog :=
  match req with
  | PostLinks env targetUrl customCode => post_prog env targetUrl customCode
  | GetLinks => list_prog
  | GetLink code => get_prog code
  | DeleteLink code => delete_prog code
  | GetCode now code => redirect_prog now code
  end.

(** ** Vocabulary of the properties *)

(** The classes of the specification, in its own words. *)
Definition alphanumeric (c : N) : Prop :=
  65 <= c <= 90 \/ 97 <= c <= 122 \/ 48 <= c <= 57.

Definition whitespace (c : N) : Prop := In c white_space.

Definition line_terminator (c : N) : Prop :=
  c = 10 \/ c = 13 \/ c = 8232 \/ c = 8233.

(** A letter of either case, which [Canonicalize] may move or reach. *)
Definition cased (c : N) : Prop := 65 <= c <= 90 \/ 97 <= c <= 122.

(** ASCII lower-casing of one code unit. *)
Definition to_lower (c : N) : N :=
  if (65 <=? c) && (c <=? 90) then c + 32 else c.

(** The rule [URL_REGEX] enforces: a scheme [http://] or [https://] in any
    letter case, then a character that is neither whitespace nor one of
    [$ . ? #], then any character but a line terminator, then any number of
    non-whitespace characters. *)
Definition url_rule (s : jsstring) : Prop :=
  exists scheme c1 c2 rest,
    s = scheme ++ c1 :: c2 :: rest
    /\ (map to_lower scheme = js "http://" \/ map to_lower scheme = js "https://")
    /\ ~ whitespace c1 /\ ~ In c1 (js "$.?#")
    /\ ~ line_terminator c2
    /\ Forall (fun c => ~ whitespace c) rest.

(** The guard of part A lets a body through exactly when [targetUrl] is a
    string that obeys [url_rule]. *)
Definition valid_target (targetUrl : option jsstring) : Prop :=
  exists s, targetUrl = Some s /\ url_rule s.

(** ** Routing (index.js)

    The routes of [index.js] in the order they are registered, behind
    [express.static].  Express matches a route path against the request's
    pathname segment by segment: a literal segment is compared without
    regard to letter case, a named parameter takes one non-empty segment,
    and one trailing slash is ignored; the first route that matches both
    method and path answers, and [app.get] also answers [HEAD]. *)

Inductive Method := GET | HEAD | POST | DELETE.

Inductive RouteSeg :=
| Lit (s : string)      (* a literal segment *)
| Param.                (* :code *)

Inductive Handler :=
| HRoot | HStatsPage | HHealthz | HCreate | HList | HStats | HDelete
| HRedirect.

Definition routes : list (Method * list RouteSeg * Handler) :=
  [ (GET, [], HRoot);                                   (* app.get('/') *)
    (GET, [Lit "code"; Param], HStatsPage);              (* app.get('/code/:code') *)
    (GET, [Lit "healthz"], HHealthz);                    (* app.get('/healthz') *)
    (POST, [Lit "api"; Lit "links"], HCreate);           (* app.post('/api/links') *)
    (GET, [Lit "api"; Lit "links"], HList);              (* app.get('/api/links') *)
    (GET, [Lit "api"; Lit "links"; Param], HStats);      (* app.get('/api/links/:code') *)
    (DELETE, [Lit "api"; Lit "links"; Param], HDelete);  (* app.delete('/api/links/:code') *)
    (GET, [Param], HRedirect) ].                         (* app.get('/:code') *)

(** [String.prototype.split(sep)] for a one-character separator. *)
Fixpoint split (sep : N) (s : jsstring) : list jsstring :=
  match s with
  | [] => [[]]
  | c :: s' =>
      if c =? sep then [] :: split sep s'
      else match split sep s' with
           | seg :: segs => (c :: seg) :: segs
           | [] => [[c]]
           end
  end.

(** The segments of a pathname: what stands between its slashes after the
    leading one, one trailing slash ignored. *)
Definition path_segments (pathname : jsstring) : option (list jsstring) :=
  match pathname with
  | [] => None
  | c :: rest =>
      if c =? 47 then
        let segs := split 47 rest in
        Some (if bool_decide (last segs = Some []) then removelast segs else segs)
      else None
  end.

(** The parameter values when the path matches. *)
Fixpoint match_segs (pat : list RouteSeg) (segs : list jsstring)
    : option (list jsstring) :=
  match pat, segs with
  | [], [] => Some []
  | Lit s :: pat', seg :: segs' =>
      if bool_decide (map to_lower seg = map to_lower (js s))
      then match_segs pat' segs' else None
  | Param :: pat', seg :: segs' =>
      if bool_decide (seg = []) then None
      else match match_segs pat' segs' with
           | Some ps => Some (seg :: ps)
           | None => None
           end
  | _, _ => None
  end.

Definition method_matches (route req : Method) : bool :=
  match route, req with
  | GET, GET | GET, HEAD | POST, POST | DELETE, DELETE => true
  | _, _ => false
  end.

Fixpoint first_route (rs : list (Method * list RouteSeg * Handler))
    (m : Method) (segs : list jsstring) : option (Handler * list jsstring) :=
  match rs with
  | [] => None
  | (rm, pat, h) :: rs' =>
      if method_matches rm m then
        match match_segs pat segs with
        | Some ps => Some (h, ps)
        | None => first_route rs' m segs
        end
      else first_route rs' m segs
  end.

(** A request as the application sees it: the body is the one parsed by
    [express.json()], its two fields absent or strings. *)
Record HttpRequest := {
  method : Method;
  pathname : jsstring;
  body_targetUrl : option jsstring;
  body_customCode : option jsstring
}.

(** What the application reads besides the request: which pathnames
    [express.static] answers from [public/], the decoding of a parameter
    ([decodeURIComponent], which fails on a malformed escape), the sources
    of the create handler, and the clock. *)
Record ServerEnv := {
  is_static : jsstring -> bool;
  decode_param : jsstring -> option jsstring;
  create_env : CreateEnv;
  clock : N
}.

Inductive Served :=
| StaticFile                  (* answered by express.static *)
| SendFile (file : string)    (* res.sendFile(path.join(publicPath, file)) *)
| Health                      (* 200 { ok: true, version, message } *)
| Api (r : Response)          (* one of the handlers above *)
| DecodeFailed                (* the router's 400 for a malformed parameter *)
| NoRoute.                    (* no route matched: Express's 404 *)

Fixpoint decode_all (decode : jsstring -> option jsstring)
    (ps : list jsstring) : option (list jsstring) :=
  match ps with
  | [] => Some []
  | p :: ps' =>
      match decode p, decode_all decode ps' with
      | Some d, Some ds => Some (d :: ds)
      | _, _ => None
      end
  end.

Definition invoke (env : ServerEnv) (h : Handler) (params : list jsstring)
    (req : HttpRequest) (st : Store) : Served * Store :=
  let code := ToString (head params) in
  match h with
  | HRoot => (SendFile "index.html", st)
  | HStatsPage => (SendFile "stats.html", st)
  | HHealthz => (Health, st)
  | HCreate =>
      let o := post_link (create_env env) st
                 (body_targetUrl req) (body_customCode req) in
      (Api (response o), store o)
  | HList => (Api (list_links st), st)
  | HStats => (Api (get_link st code), st)
  | HDelete => let '(r, st') := delete_link st code in (Api r, st')
  | HRedirect => let '(r, st') := redirect (clock env) st code in (Api r, st')
  end.

Definition is_get (m : Method) : bool :=
  match m with
  | GET | HEAD => true
  | _ => false
  end.

Definition dispatch (env : ServerEnv) (req : HttpRequest) (st : Store)
    : Served * Store :=
  if is_get (method req) && is_static env (pathname req) then (StaticFile, st)
  else
    match path_segments (pathname req) with
    | None => (NoRoute, st)
    | Some segs =>
        match first_route routes (method req) segs with
        | None => (NoRoute, st)
        | Some (h, params) =>
            match decode_all (decode_param env) params with
            | None => (DecodeFailed, st)
            | Some ps => invoke env h ps req st
            end
        end
    end.

(** ** Browser scripts (public/app.js, public/stats.js)

    The scripts are modelled up to what they show: [fetch] is a function
    from the request to what comes back, and a page is the values the
    script writes into it. *)

(** What [await fetch(...)] followed by [await response.json()] gives: a
    status with the parsed body, or an exception (no connection, or a body
    that is not JSON). *)
Inductive Fetched :=
| FJson (status : nat) (data : JsonBody)
| FThrow.

(** [response.ok] *)
Definition response_ok (status : nat) : bool :=
  (200 <=? status)%nat && (status <=? 299)%nat.

(** [data.error || fallback] *)
Definition error_or (data : JsonBody) (fallback : string) : string :=
  match data with
  | JError EmptyString => fallback
  | JError e => e
  | _ => fallback
  end.

(** What the browser receives for a response of the application. *)
Definition fetched_of (r : Response) : Fetched :=
  match r with
  | Json n data => FJson n data
  | _ => FThrow
  end.

(** [const CODE_REGEX = /^[A-Za-z0-9]{6,8}$/;] inside [validateCustomCode]. *)
Definition APP_CODE_REGEX : RegExp :=
  {| body := PRepeat 6 8 (PClass false [CRange 65 90; CRange 97 122; CRange 48 57]);
     ignoreCase := false |}.

(** [const validateCustomCode = (code) => ...] of [app.js]; [None] is
    [null]. *)
Definition validateCustomCode (code : jsstring) : option string :=
  if truthy (Some code) && negb (test APP_CODE_REGEX code)
  then Some "Custom code must be 6 to 8 alphanumeric characters."%string
  else None.

(** What [handleFormSubmit] ends by showing. *)
Inductive FormOutcome :=
| InvalidInput (codeError : string)   (* no request is sent *)
| Created (shortUrl : jsstring)       (* success message, form reset, list reloaded *)
| Failed (error : string)             (* the API's error, or the fallback *)
| Critical.                           (* the catch branch *)

(** [const handleFormSubmit = async (e) => ...]; the two strings are the
    values of the form fields, [BASE_URL] is [window.location.origin], and
    [post] is the request [fetch(API_BASE, { method: 'POST', body })] with
    body [{ targetUrl, customCode }]. *)
Definition handleFormSubmit (BASE_URL : jsstring)
    (post : jsstring -> jsstring -> Fetched)
    (targetUrl customCode : jsstring) : FormOutcome :=
  match validateCustomCode customCode with
  | Some codeError => InvalidInput codeError
  | None =>
      match post targetUrl customCode with
      | FThrow => Critical
      | FJson status data =>
          if response_ok status then
            match data with
            | JCreated _ link => Created (BASE_URL ++ js "/" ++ shortCode link)
            | _ => Critical         (* data.link is undefined *)
            end
          else Failed (error_or data "Failed to create link.")
      end
  end.

(** The stats page: the text of [#short-code-display] when the script sets
    it, and the content of [#stats-details]. *)
Inductive Details :=
| DInvalidCode                        (* 'Invalid link code in URL.' *)
| DStats (data : JsonBody)            (* renderStats(data) *)
| DNotFound (detail : string)         (* 'Link Not Found: ' + detail *)
| DCritical.                          (* 'Could not connect to the API.' *)

Record StatsPage := {
  short_code_display : option jsstring;
  stats_details : Details
}.

(** [const fetchLinkStats = async (code) => ...], entered with
    [#short-code-display] already set to [code]; [get] is [fetch(url)]. *)
Definition fetchLinkStats (get : jsstring -> Fetched) (code : jsstring)
    : StatsPage :=
  let url := js "/api/links/" ++ code in
  match get url with
  | FJson status data =>
      if response_ok status then
        {| short_code_display := Some code; stats_details := DStats data |}
      else
        {| short_code_display := Some (js "Not Found");
           stats_details :=
             DNotFound (error_or data "The short code does not exist.") |}
  | FThrow =>
      {| short_code_display := Some (js "Error"); stats_details := DCritical |}
  end.

(** The [DOMContentLoaded] handler of [stats.js], for
    [window.location.pathname]. *)
Definition stats_onload (get : jsstring -> Fetched) (pathname : jsstring)
    : StatsPage :=
  let pathSegments := split 47 pathname in
  let shortCode := pathSegments !! (length pathSegments - 1)%nat in
  if truthy shortCode then fetchLinkStats get (ToString shortCode)
  else {| short_code_display := None; stats_details := DInvalidCode |}.

(** Every row is stored under its own [shortCode], which is alphanumeric,
    and points to a target that obeys [url_rule]. *)
Definition store_ok (st : gmap jsstring Link) : Prop :=
  forall c l, st !! c = Some l ->
    shortCode l = c /\ Forall alphanumeric c /\ url_rule (targetUrl l).

(** The row [prisma.link.create] inserts for [code] and [url]. *)
Definition new_link (env : CreateEnv) (code url : jsstring) : Link :=
  {| id := new_id env; shortCode := code; targetUrl := url; totalClicks := 0;
     createdAt := now env; lastClickedAt := None |}.

(** The two characters the generator removes. *)
Definition dash_or_underscore (c : N) : bool := (c =? 45) || (c =? 95).

(** A redirect on [code]. *)
Definition is_redirect_on (code : jsstring) (req : Request) : bool :=
  match req with
  | GetCode _ c => bool_decide (c = code)
  | _ => false
  end.

(** What a request other than a delete of [code] does to the row of
    [code]. *)
Definition step_row (code : jsstring) (req : Request) (l : Link) : Link :=
  match req with
  | GetCode t c => if bool_decide (c = code) then click t l else l
  | _ => l
  end.

(** [p] never updates or deletes the row of [code], whatever the database
    answers to its calls. *)
Fixpoint spares (code : jsstring) (p : Prog) : Prop :=
  match p with
  | Return _ => True
  | AwaitFindUnique _ k => forall x, spares code (k x)
  | AwaitCreate _ _ _ _ _ k => forall x, spares code (k x)
  | AwaitUpdate c _ k => c <> code /\ forall x, spares code (k x)
  | AwaitDelete c k => c <> code /\ forall x, spares code (k x)
  | AwaitFindMany k => forall x, spares code (k x)
  end.

(** Among the requests [reqs], in flight as [pool], the redirects on [code]
    that have been answered. *)
Fixpoint clicks_done (code : jsstring) (reqs : list Request)
    (pool : list Prog) : nat :=
  match reqs, pool with
  | req :: reqs', p :: pool' =>
      ((if is_redirect_on code req && is_return p then 1 else 0)
       + clicks_done code reqs' pool')%nat
  | _, _ => 0%nat
  end.

(** Where the request [req] can stand when the row of [code] first held
    [l]: a redirect on [code] still awaits its update or has answered 302
    with the row's target; any other request spares the row. *)
Definition thread_ok (code : jsstring) (l : Link) (req : Request) (p : Prog)
    : Prop :=
  if is_redirect_on code req
  then exists t, req = GetCode t code
         /\ (p = redirect_prog t code \/ p = Return (Redirect 302 (targetUrl l)))
  else spares code p.

(** The requests in flight and the table agree: the row of [code] has
    counted exactly the redirects answered so far. *)
Definition pool_inv (code : jsstring) (l : Link) (reqs : list Request)
    (pool : list Prog) (st : gmap jsstring Link) : Prop :=
  length pool = length reqs
  /\ (forall i req p, reqs !! i = Some req -> pool !! i = Some p ->
        thread_ok code l req p)
  /\ exists l', st !! code = Some l'
       /\ targetUrl l' = targetUrl l
       /\ totalClicks l' = totalClicks l + N.of_nat (clicks_done code reqs pool).

(** A handler that would read the row and then write the incremented
    count back in a second call; [index.js] does not do this. *)
Definition read_then_write_prog (now : N) (code : jsstring) : Prog :=
  AwaitFindUnique code (fun seen =>
    match seen with
    | None => Return (Send 404 (Some txt_not_found))
    | Some l =>
        AwaitUpdate code (fun _ => click now l) (fun res =>
          Return (match res with
                  | inr updatedLink => Redirect 302 (targetUrl updatedLink)
                  | inl P2025 => Send 404 (Some txt_not_found)
                  | inl _ => Send 500 (Some txt_redirect_error)
                  end))
    end).

(** The clock reading of the last redirect on [code] among [reqs], or
    [before] when there is none. *)
Definition last_click (code : jsstring) (reqs : list Request)
    (before : option N) : option N :=
  fold_left (fun acc req =>
               match req with
               | GetCode t c => if bool_decide (c = code) then Some t else acc
               | _ => acc
               end) reqs before.

(** The server as the form's [fetch] sees it: the body is
    [JSON.stringify({ targetUrl, customCode })], both fields strings. *)
Definition fetch_post (env : CreateEnv) (st : gmap jsstring Link)
    (targetUrl customCode : jsstring) : Fetched :=
  fetched_of (response (post_link env st (Some targetUrl) (Some customCode))).

(** ** Sample data *)

(** A random source whose every draw is [Math.random() < 1/3] and six zero
    octets: the generator then returns ["AAAAAA"]. *)
Definition zero_draw : Draw := {| floor3 := 0; bytes := [0; 0; 0; 0; 0; 0] |}.

Definition zero_env : CreateEnv :=
  {| draws := fun _ => zero_draw; new_id := 7; now := 1000 |}.

(** A random source whose every draw is six octets [0xff]: the buffer
    encodes to ["________"]. *)
Definition ff_draw : Draw :=
  {| floor3 := 0; bytes := [255; 255; 255; 255; 255; 255] |}.

Definition ff_env : CreateEnv :=
  {| draws := fun _ => ff_draw; new_id := 7; now := 1000 |}.

Definition docs_link (code : jsstring) (clicks created : N) : Link :=
  {| id := 1; shortCode := code; targetUrl := js "https://example.com/docs";
     totalClicks := clicks; createdAt := created; lastClickedAt := None |}.

(** A table with one row, under [code]. *)
Definition one_row (code : jsstring) : gmap jsstring Link :=
  {[ code := docs_link code 3 500 ]}.

(** A pathname from its segments: [/a/b/c] is [47 :: slash_join [a; b; c]]. *)
Fixpoint slash_join (segs : list jsstring) : jsstring :=
  match segs with
  | [] => []
  | [seg] => seg
  | seg :: segs' => seg ++ 47 :: slash_join segs'
  end.

(** A [GET] request for a pathname. *)
Definition get_request (pathname : jsstring) : HttpRequest :=
  {| method := GET; pathname := pathname;
     body_targetUrl := None; body_customCode := None |}.

(** A server without static files that decodes nothing away. *)
Definition plain_server : ServerEnv :=
  {| is_static := fun _ => false; decode_param := Some;
     create_env := zero_env; clock := 2000 |}.

(** A server whose [public/] directory holds the two pages and their
    scripts, [/] being answered with [index.html]. *)
Definition public_server : ServerEnv :=
  {| is_static := fun p =>
       existsb (fun f => bool_decide (p = f))
         [js "/"; js "/index.html"; js "/stats.html"; js "/app.js"; js "/stats.js"];
     decode_param := Some; create_env := zero_env; clock := 2000 |}.

(** * Properties *)

(** ** Sample runs *)

Example URL_REGEX_ex1 : test URL_REGEX (js "https://example.com/docs") = true.
Proof. vm_compute. reflexivity. Qed.
Example URL_REGEX_ex2 : test URL_REGEX (js "http://a") = false.
Proof. vm_compute. reflexivity. Qed.
Example URL_REGEX_ex3 : test URL_REGEX (js "HTTP://a b") = true.
Proof. vm_compute. reflexivity. Qed.
Example CODE_REGEX_ex1 : test CODE_REGEX (js "airocks7") = true.
Proof. vm_compute. reflexivity. Qed.
Example CODE_REGEX_ex2 : test CODE_REGEX (js "invalid!") = false.
Proof. vm_compute. reflexivity. Qed.

(** ** The matcher decides membership in [lang] *)

Section RegexFacts.

Implicit Types (r : regex) (s : jsstring) (c : N) (p : N -> bool).

Lemma lang_void_inv s : ~ lang Void s.
Proof. inversion 1. Qed.

Lemma lang_eps_inv s : lang Eps s <-> s = [].
Proof. split; [by inversion 1 | intros ->; constructor]. Qed.

Lemma lang_sym_inv p s : lang (Sym p) s <-> exists c, s = [c] /\ p c = true.
Proof.
  split; [inversion 1; eauto | intros (c & -> & Hc); by constructor].
Qed.

Lemma lang_cat_inv r1 r2 s :
  lang (Cat r1 r2) s <-> exists s1 s2, s = s1 ++ s2 /\ lang r1 s1 /\ lang r2 s2.
Proof.
  split; [inversion 1; subst; eauto | intros (s1 & s2 & -> & H1 & H2)].
  by constructor.
Qed.

Lemma lang_alt_inv r1 r2 s : lang (Alt r1 r2) s <-> lang r1 s \/ lang r2 s.
Proof.
  split; [inversion 1; subst; auto | intros [H|H]].
  - by apply lang_alt_l.
  - by apply lang_alt_r.
Qed.

(** A non-empty word of a star starts with a non-empty word of its body. *)
Lemma lang_star_cons_inv r c s :
  lang (Star r) (c :: s) ->
  exists s1 s2, s = s1 ++ s2 /\ lang r (c :: s1) /\ lang (Star r) s2.
Proof.
  remember (Star r) as r' eqn:Er. remember (c :: s) as w eqn:Ew.
  intros H. revert Er Ew.
  induction H as [ | | | | | |r0 s1 s2 H1 _ H2 IH2]; try discriminate.
  intros Er Ew. injection Er as ->.
  destruct s1 as [|c1 s1]; simpl in Ew.
  - by apply IH2.
  - injection Ew as -> <-. eauto.
Qed.

Lemma nullable_lang r : nullable r = true <-> lang r [].
Proof.
  induction r as [ | |p|r1 IH1 r2 IH2|r1 IH1 r2 IH2|r IH]; simpl.
  - split; [done | by intros ?%lang_void_inv].
  - split; [constructor | done].
  - split; [done | intros (c & [=] & _)%lang_sym_inv].
  - rewrite andb_true_iff, IH1, IH2, lang_cat_inv. split.
    + intros [H1 H2]. by exists [], [].
    + intros (s1 & s2 & Hs & H1 & H2).
      symmetry in Hs. apply app_eq_nil in Hs as [-> ->]. done.
  - by rewrite orb_true_iff, IH1, IH2, lang_alt_inv.
  - split; [constructor | done].
Qed.

Lemma deriv_lang r c s : lang (deriv c r) s <-> lang r (c :: s).
Proof.
  revert s.
  induction r as [ | |p|r1 IH1 r2 IH2|r1 IH1 r2 IH2|r IH]; intros s; simpl.
  - split; by intros ?%lang_void_inv.
  - split; [by intros ?%lang_void_inv | by intros [=]%lang_eps_inv].
  - rewrite lang_sym_inv. destruct (p c) eqn:Hp.
    + rewrite lang_eps_inv. split.
      * intros ->. eauto.
      * by intros (c' & [= -> ->] & _).
    + split; [by intros ?%lang_void_inv|].
      intros (c' & [= -> ->] & Hc). congruence.
  - assert (Hcat : lang (Cat (deriv c r1) r2) s \/
                   (nullable r1 = true /\ lang (deriv c r2) s)
                   <-> lang (Cat r1 r2) (c :: s)).
    { rewrite !lang_cat_inv, nullable_lang, IH2. split.
      - intros [(s1 & s2 & -> & H1 & H2) | [H1 H2]].
        + exists (c :: s1), s2. by rewrite <- IH1.
        + by exists [], (c :: s).
      - intros (s1 & s2 & Hs & H1 & H2). destruct s1 as [|c1 s1]; simpl in Hs.
        + subst s2. by right.
        + injection Hs as <- ->. left. exists s1, s2. by rewrite IH1. }
    rewrite <- Hcat. destruct (nullable r1).
    + rewrite lang_alt_inv. tauto.
    + intuition discriminate.
  - by rewrite !lang_alt_inv, IH1, IH2.
  - rewrite lang_cat_inv. split.
    + intros (s1 & s2 & -> & H1 & H2). apply IH in H1.
      by apply (lang_star_app r (c :: s1) s2).
    + intros (s1 & s2 & -> & H1 & H2)%lang_star_cons_inv.
      exists s1, s2. by rewrite IH.
Qed.

Lemma matches_lang r s : matches r s = true <-> lang r s.
Proof.
  revert r. induction s as [|c s IH]; intros r; simpl.
  - apply nullable_lang.
  - by rewrite IH, deriv_lang.
Qed.

(** Words of the expressions the two patterns are built from. *)

Lemma lang_power_sym p n s :
  lang (power n (Sym p)) s <-> length s = n /\ Forall (fun c => p c = true) s.
Proof.
  revert s. induction n as [|n IH]; intros s; simpl.
  - rewrite lang_eps_inv. split.
    + by intros ->.
    + intros [Hl _]. by destruct s.
  - rewrite lang_cat_inv. split.
    + intros (s1 & s2 & -> & (c & -> & Hc)%lang_sym_inv & [H1 H2]%IH).
      simpl. split; [by f_equal | by constructor].
    + intros [Hl Hs]. destruct s as [|c s]; [done|].
      apply Forall_cons in Hs as [Hc Hs]. exists [c], s.
      split; [done|]. split; [by constructor|]. apply IH. split; [|done].
      by injection Hl.
Qed.

Lemma lang_power_opt_sym p n s :
  lang (power n (Alt (Sym p) Eps)) s
  <-> (length s <= n)%nat /\ Forall (fun c => p c = true) s.
Proof.
  revert s. induction n as [|n IH]; intros s; simpl.
  - rewrite lang_eps_inv. split.
    + by intros ->.
    + intros [Hl _]. destruct s; [done | simpl in Hl; lia].
  - rewrite lang_cat_inv. split.
    + intros (s1 & s2 & -> & [(c & -> & Hc)%lang_sym_inv| ->%lang_eps_inv]%lang_alt_inv
                 & [H1 H2]%IH); simpl.
      * split; [lia | by constructor].
      * split; [lia | done].
    + intros [Hl Hs]. destruct s as [|c s].
      * exists [], []. split; [done|]. split.
        -- apply lang_alt_r. constructor.
        -- apply IH. by split; [simpl; lia|].
      * apply Forall_cons in Hs as [Hc Hs]. exists [c], s.
        split; [done|]. split.
        -- apply lang_alt_l. by constructor.
        -- apply IH. simpl in Hl. split; [lia | done].
Qed.

Lemma lang_star_sym p s :
  lang (Star (Sym p)) s <-> Forall (fun c => p c = true) s.
Proof.
  split.
  - induction s as [|c s IH]; [constructor|].
    intros (s1 & s2 & -> & (c' & [= -> ->] & Hc)%lang_sym_inv & H2)%lang_star_cons_inv.
    constructor; [done | by apply IH].
  - induction 1 as [|c s Hc _ IH]; [constructor|].
    apply (lang_star_app _ [c] s); [by constructor | done].
Qed.

End RegexFacts.

(** ** Character classes *)

Lemma char_range_In lo hi c : In c (char_range lo hi) <-> lo <= c <= hi.
Proof.
  unfold char_range. rewrite in_map_iff. split.
  - intros (k & <- & Hk%in_seq). lia.
  - intros H. exists (N.to_nat (c - lo)). rewrite in_seq. lia.
Qed.

Lemma class_matches_In items c :
  class_matches false items c = true <-> In c (flat_map item_chars items).
Proof.
  unfold class_matches. rewrite existsb_exists. split.
  - intros (a & Ha & Heq%N.eqb_eq). change (a = c) in Heq. by subst a.
  - intros H. exists c. by rewrite N.eqb_refl.
Qed.

(** Ignoring case changes nothing for a class without letters. *)
Lemma class_matches_caseless i items c :
  Forall (fun a => ~ cased a) (flat_map item_chars items) ->
  class_matches i items c = true <-> In c (flat_map item_chars items).
Proof.
  intros Hcl. rewrite List.Forall_forall in Hcl.
  destruct i; [|apply class_matches_In].
  unfold class_matches. rewrite existsb_exists. split.
  - intros (a & Ha & Heq%N.eqb_eq). specialize (Hcl a Ha).
    assert (c = a) as ->; [|done].
    revert Heq Hcl. unfold canonicalize, cased. simpl.
    destruct (N.leb_spec 97 a), (N.leb_spec a 122),
      (N.leb_spec 97 c), (N.leb_spec c 122); simpl; lia.
  - intros H. exists c. by rewrite N.eqb_refl.
Qed.

Lemma white_space_caseless : Forall (fun a => ~ cased a) white_space.
Proof. unfold cased. repeat constructor; lia. Qed.

Lemma class_alnum c :
  class_matches false [CRange 65 90; CRange 97 122; CRange 48 57] c = true
  <-> alphanumeric c.
Proof.
  rewrite class_matches_In. cbn [flat_map item_chars].
  rewrite !in_app_iff, !char_range_In. unfold alphanumeric. simpl. tauto.
Qed.

Lemma class_space i c : class_matches i [CSpace] c = true <-> whitespace c.
Proof.
  rewrite class_matches_caseless; cbn [flat_map item_chars];
    rewrite app_nil_r; [done | apply white_space_caseless].
Qed.

Lemma class_url_first c :
  class_matches true [CSpace; CChar 36; CChar 46; CChar 63; CChar 35] c = true
  <-> whitespace c \/ In c [36; 46; 63; 35].
Proof.
  rewrite class_matches_caseless; cbn [flat_map item_chars app].
  - rewrite in_app_iff. unfold whitespace. cbn [In]. tauto.
  - apply Forall_app. split; [apply white_space_caseless|].
    unfold cased. repeat constructor; lia.
Qed.

Lemma dot_matches_spec c : dot_matches c = true <-> ~ line_terminator c.
Proof.
  unfold dot_matches, line_terminator.
  rewrite negb_true_iff, !orb_false_iff, !N.eqb_neq. tauto.
Qed.

Lemma line_terminator_whitespace c : line_terminator c -> whitespace c.
Proof.
  unfold whitespace.
  intros [-> | [-> | [-> | ->]]]; vm_compute; tauto.
Qed.

(** Under [/i], a pattern character that is not a capital letter accepts the
    code units that lower-case to it. *)
Lemma pchar_ignoreCase (a c : N) :
  ~ 65 <= a <= 90 ->
  (canonicalize true a =? canonicalize true c) = true <-> to_lower c = a.
Proof.
  intros Ha. rewrite N.eqb_eq. unfold canonicalize, to_lower. simpl.
  destruct (N.leb_spec 97 a), (N.leb_spec a 122),
    (N.leb_spec 97 c), (N.leb_spec c 122),
    (N.leb_spec 65 c), (N.leb_spec c 90); simpl; lia.
Qed.

(** ** The two syntax rules *)

(** Words of [c{lo,lo+k}] for a one-character expression [c]. *)
Lemma lang_repeat_sym (p : N -> bool) (lo k : nat) (s : jsstring) :
  lang (Cat (power lo (Sym p)) (power k (Alt (Sym p) Eps))) s
  <-> (lo <= length s <= lo + k)%nat /\ Forall (fun c => p c = true) s.
Proof.
  rewrite lang_cat_inv. split.
  - intros (s1 & s2 & -> & [Hl1 Hf1]%lang_power_sym & [Hl2 Hf2]%lang_power_opt_sym).
    rewrite length_app. split; [lia | by apply Forall_app].
  - intros [Hl Hf]. exists (take lo s), (drop lo s).
    split; [by rewrite take_drop|]. split.
    + apply lang_power_sym. split; [rewrite length_take; lia|].
      by apply Forall_take.
    + apply lang_power_opt_sym. split; [rewrite length_drop; lia|].
      by apply Forall_drop.
Qed.

(** C6. [CODE_REGEX.test(s)], the code validation of the registry, is true
    if and only if [s] has 6 to 8 code units and each of them is
    alphanumeric; any other character, or any other length, makes it
    false. *)
Theorem CODE_REGEX_test_iff (s : jsstring) :
  test CODE_REGEX s = true
  <-> (6 <= length s <= 8)%nat /\ Forall alphanumeric s.
Proof.
  unfold test. rewrite matches_lang.
  cbn [compile body ignoreCase CODE_REGEX].
  change (8 - 6)%nat with 2%nat. rewrite lang_repeat_sym.
  cbn [Nat.add]. rewrite !Forall_forall.
  split; intros [Hl Hf]; (split; [done|]); intros c Hc; apply class_alnum;
    by apply Hf.
Qed.

Lemma not_class_space (c : N) :
  negb (class_matches true [CSpace] c) = true <-> ~ whitespace c.
Proof.
  rewrite negb_true_iff, <- not_true_iff_false. by rewrite class_space.
Qed.

Lemma not_class_url_first (c : N) :
  negb (class_matches true [CSpace; CChar 36; CChar 46; CChar 63; CChar 35] c)
    = true
  <-> ~ whitespace c /\ ~ In c (js "$.?#").
Proof.
  rewrite negb_true_iff, <- not_true_iff_false, class_url_first.
  change (js "$.?#") with [36; 46; 63; 35]. tauto.
Qed.

Ltac lang_char H a Ha :=
  apply lang_cat_inv in H as (? & ? & -> & (a & -> & Ha)%lang_sym_inv & H);
  cbv beta in Ha.

Lemma URL_REGEX_test_iff (s : jsstring) :
  test URL_REGEX s = true <-> url_rule s.
Proof.
  unfold test. rewrite matches_lang.
  cbn [compile pseq body ignoreCase URL_REGEX]. split.
  - intros H.
    lang_char H a1 H1. lang_char H a2 H2. lang_char H a3 H3. lang_char H a4 H4.
    apply lang_cat_inv in H as (w5 & s5 & -> & Hopt%lang_alt_inv & H).
    lang_char H a6 H6. lang_char H a7 H7. lang_char H a8 H8.
    lang_char H c1 Hc1.
    apply lang_cat_inv in H as (? & rest & -> & (c2 & -> & Hc2)%lang_sym_inv & H).
    apply lang_star_sym in H.
    apply pchar_ignoreCase in H1, H2, H3, H4, H6, H7, H8; try lia.
    apply not_class_url_first in Hc1 as [Hc1 Hc1'].
    apply dot_matches_spec in Hc2.
    assert (Hrest : Forall (fun c => ~ whitespace c) rest).
    { eapply Forall_impl; [apply H|]. intros c Hc. by apply not_class_space. }
    destruct Hopt as [(a5 & -> & H5)%lang_sym_inv | ->%lang_eps_inv].
    + cbv beta in H5. apply pchar_ignoreCase in H5; [|lia].
      exists [a1; a2; a3; a4; a5; a6; a7; a8], c1, c2, rest.
      split; [done|]. split; [right | done].
      cbn [map]. by rewrite H1, H2, H3, H4, H5, H6, H7, H8.
    + exists [a1; a2; a3; a4; a6; a7; a8], c1, c2, rest.
      split; [done|]. split; [left | done].
      cbn [map]. by rewrite H1, H2, H3, H4, H6, H7, H8.
  - intros (scheme & c1 & c2 & rest & -> & Hscheme & Hc1 & Hc1' & Hc2 & Hrest).
    assert (Htail : lang
      (Cat (Sym (fun x => negb (class_matches true
                   [CSpace; CChar 36; CChar 46; CChar 63; CChar 35] x)))
         (Cat (Sym dot_matches)
            (Star (Sym (fun x => negb (class_matches true [CSpace] x))))))
      (c1 :: c2 :: rest)).
    { apply (lang_cat _ _ [c1] (c2 :: rest)).
      - constructor. by apply not_class_url_first.
      - apply (lang_cat _ _ [c2] rest).
        + constructor. by apply dot_matches_spec.
        + apply lang_star_sym. eapply Forall_impl; [apply Hrest|].
          intros c Hc. by apply not_class_space. }
    assert (Hchar : forall a c r w, ~ 65 <= a <= 90 -> to_lower c = a ->
              lang r w ->
              lang (Cat (Sym (fun x => canonicalize true a =? canonicalize true x)) r)
                   (c :: w)).
    { intros a c r w Ha Hc Hw. apply (lang_cat _ _ [c] w); [|done].
      constructor. by apply pchar_ignoreCase. }
    change (js "http://") with [104; 116; 116; 112; 58; 47; 47] in Hscheme.
    change (js "https://") with [104; 116; 116; 112; 115; 58; 47; 47] in Hscheme.
    destruct Hscheme as [Hs | Hs].
    + destruct scheme as [|a1 [|a2 [|a3 [|a4 [|a6 [|a7 [|a8 [|? ?]]]]]]]];
        try discriminate Hs.
      injection Hs as H1 H2 H3 H4 H6 H7 H8.
      repeat (apply Hchar; [lia | done |]).
      apply (lang_cat _ _ [] _); [apply lang_alt_r; constructor|].
      repeat (apply Hchar; [lia | done |]). done.
    + destruct scheme as [|a1 [|a2 [|a3 [|a4 [|a5 [|a6 [|a7 [|a8 [|? ?]]]]]]]]];
        try discriminate Hs.
      injection Hs as H1 H2 H3 H4 H5 H6 H7 H8.
      repeat (apply Hchar; [lia | done |]).
      apply (lang_cat _ _ [a5] _);
        [apply lang_alt_l, lang_sym, pchar_ignoreCase; [lia | done]|].
      repeat (apply Hchar; [lia | done |]). done.
Qed.

(** ** Create: [POST /api/links] *)

Lemma url_rule_nonempty (s : jsstring) : url_rule s -> s <> [].
Proof.
  intros (scheme & c1 & c2 & rest & -> & _). by destruct scheme.
Qed.

Lemma target_guard (targetUrl : option jsstring) :
  negb (truthy targetUrl) || negb (test URL_REGEX (ToString targetUrl)) = false
  <-> valid_target targetUrl.
Proof.
  rewrite orb_false_iff, !negb_false_iff. split.
  - intros [Ht Hu]. destruct targetUrl as [s|]; [|done].
    exists s. split; [done|]. by apply URL_REGEX_test_iff.
  - intros (s & -> & Hs). split.
    + apply url_rule_nonempty in Hs. by destruct s.
    + by apply URL_REGEX_test_iff.
Qed.

Lemma target_guard_dec (targetUrl : option jsstring) :
  valid_target targetUrl \/ ~ valid_target targetUrl.
Proof.
  rewrite <- target_guard.
  destruct (negb (truthy targetUrl) || negb (test URL_REGEX (ToString targetUrl)));
    auto.
Qed.

(** The insertion answers 201, 409 or 500, and never 400. *)
Lemma save_link_response env st shortCode url tried :
  let o := save_link env st shortCode url tried in
  response o <> InvalidTarget /\ response o <> InvalidCode
  /\ candidates o = tried.
Proof.
  unfold save_link, prisma_create.
  destruct shortCode as [c|]; [destruct (st !! c)|]; simpl; done.
Qed.

(** The retry loop: it draws [k <= n] candidates, the draws [i], [i+1],
    ...; every candidate but the last one it keeps was found in the table;
    it stops early exactly on a free candidate. *)
Lemma retry_loop_spec st draws n :
  forall i shortCode tried,
    let r := retry_loop st draws i n shortCode tried in
    exists k,
      (k <= n)%nat
      /\ generated r = tried ++ map (fun j => generateRandomCode (draws j)) (seq i k)
      /\ (forall j, (i <= j < i + k - 1)%nat ->
            is_Some (st !! generateRandomCode (draws j)))
      /\ (if foundUnique r
          then exists j, k = S j
                 /\ loop_shortCode r = Some (generateRandomCode (draws (i + j)%nat))
                 /\ st !! generateRandomCode (draws (i + j)%nat) = None
          else k = n
               /\ forall j, (i <= j < i + n)%nat ->
                    is_Some (st !! generateRandomCode (draws j))).
Proof.
  induction n as [|n IH]; intros i shortCode tried; simpl.
  - exists 0%nat. simpl. rewrite app_nil_r.
    repeat split; [lia | lia | intros; lia].
  - unfold findUnique.
    destruct (st !! generateRandomCode (draws i)) as [l|] eqn:Hi; simpl.
    + destruct (IH (S i) (Some (generateRandomCode (draws i)))
                   (tried ++ [generateRandomCode (draws i)]))
        as (k & Hk & Hgen & Hused & Hend).
      exists (S k). split; [lia|]. split.
      { rewrite Hgen, <- app_assoc. done. }
      split.
      { intros j Hj. destruct (decide (j = i)) as [->|Hne]; [by rewrite Hi|].
        apply Hused. lia. }
      destruct (foundUnique _).
      * destruct Hend as (j & -> & Hsc & Hfree). exists (S j).
        replace (i + S j)%nat with (S i + j)%nat by lia. done.
      * destruct Hend as [-> Hall]. split; [done|].
        intros j Hj. destruct (decide (j = i)) as [->|Hne]; [by rewrite Hi|].
        apply Hall. lia.
    + exists 1%nat. split; [lia|]. split; [done|]. split; [intros; lia|].
      exists 0%nat. by rewrite Nat.add_0_r.
Qed.

Lemma no_whitespace_check (s : jsstring) :
  forallb (fun c => negb (class_matches false [CSpace] c)) s = true ->
  Forall (fun c => ~ whitespace c) s.
Proof.
  rewrite forallb_forall, List.Forall_forall. intros H c Hc.
  specialize (H c Hc). apply negb_true_iff in H.
  rewrite <- class_space, H. done.
Qed.

(** C4, as the code has it. [POST /api/links] answers [InvalidTarget]
    (400) if and only if [targetUrl] is missing or does not obey the rule of
    [URL_REGEX]; in particular every string made of [http://] or [https://]
    followed by at least two characters, the first of which is none of
    [$ . ? #], and holding no whitespace, is accepted. *)
Theorem post_link_InvalidTarget_iff env st targetUrl customCode :
  (response (post_link env st targetUrl customCode) = InvalidTarget
   <-> ~ valid_target targetUrl)
  /\ (forall scheme c1 c2 rest,
        targetUrl = Some (scheme ++ c1 :: c2 :: rest) ->
        scheme = js "http://" \/ scheme = js "https://" ->
        ~ In c1 (js "$.?#") ->
        Forall (fun c => ~ whitespace c) (c1 :: c2 :: rest) ->
        response (post_link env st targetUrl customCode) <> InvalidTarget).
Proof.
  assert (Hiff : response (post_link env st targetUrl customCode) = InvalidTarget
                 <-> ~ valid_target targetUrl).
  { rewrite <- target_guard. unfold post_link.
    destruct (negb (truthy targetUrl) || negb (test URL_REGEX (ToString targetUrl))).
    - simpl. split; [discriminate | done].
    - split; [|done]. intros H. exfalso. revert H.
      destruct (truthy customCode).
      + destruct (negb (test CODE_REGEX (ToString customCode))); [done|].
        apply save_link_response.
      + destruct (negb (foundUnique _)); [done|]. apply save_link_response. }
  split; [done|].
  intros scheme c1 c2 rest -> Hscheme Hc1 Hws. rewrite Hiff.
  intros Hno. apply Hno. exists (scheme ++ c1 :: c2 :: rest). split; [done|].
  apply Forall_cons in Hws as [Hw1 Hws]. apply Forall_cons in Hws as [Hw2 Hws].
  exists scheme, c1, c2, rest. split; [done|]. split.
  { destruct Hscheme as [-> | ->]; [by left | by right]. }
  repeat split; [done | done | | done].
  intros Hlt. by apply Hw2, line_terminator_whitespace.
Qed.

Lemma post_link_InvalidTarget_iff_witness :
  response (post_link zero_env ∅ (Some (js "https://example.com/docs")) None)
    <> InvalidTarget.
Proof.
  eapply (proj2 (post_link_InvalidTarget_iff zero_env ∅
                   (Some (js "https://example.com/docs")) None)
                (js "https://") 101 120 (js "ample.com/docs")).
  - reflexivity.
  - right. reflexivity.
  - vm_compute. intuition discriminate.
  - apply no_whitespace_check. vm_compute. reflexivity.
Defined.

(** C4, as stated, fails: ["http://a"] has the [http://] prefix and no
    whitespace, and is answered [InvalidTarget]. *)
Lemma post_link_rejects_one_char_host :
  js "http://" `prefix_of` js "http://a"
  /\ Forall (fun c => ~ whitespace c) (js "http://a")
  /\ response (post_link zero_env ∅ (Some (js "http://a")) None) = InvalidTarget
  /\ status (response (post_link zero_env ∅ (Some (js "http://a")) None)) = 400%nat.
Proof.
  split; [by exists (js "a")|].
  split; [apply no_whitespace_check; vm_compute; reflexivity|].
  split; vm_compute; reflexivity.
Qed.

(** C5. With a [customCode] supplied (one that passes the handler's
    [if (customCode)], that is, a non-empty one), the syntax check comes
    before any use of the table: a code that fails [CODE_REGEX] is answered 400, whether or
    not it is already in use; the answer is [InvalidCode] once the target
    is valid, never [CodeConflict], and the table is left as it was. *)
Theorem post_link_invalid_customCode env st targetUrl code :
  code <> [] ->
  test CODE_REGEX code = false ->
  let o := post_link env st targetUrl (Some code) in
  status (response o) = 400%nat
  /\ response o <> CodeConflict
  /\ store o = st
  /\ (valid_target targetUrl -> response o = InvalidCode)
  /\ (forall l, st !! code = Some l -> store o !! code = Some l).
Proof.
  intros Hne Hbad. unfold post_link.
  assert (Ht : truthy (Some code) = true) by by destruct code.
  rewrite Ht. cbn [ToString]. rewrite Hbad. cbn [negb].
  destruct (negb (truthy targetUrl) || negb (test URL_REGEX (ToString targetUrl)))
    eqn:Hguard; simpl.
  - repeat split; [done | | done]. rewrite <- target_guard. congruence.
  - repeat split; done.
Qed.

Lemma post_link_invalid_customCode_witness :
  let o := post_link zero_env (one_row (js "bad!"))
             (Some (js "https://example.com/docs")) (Some (js "bad!")) in
  is_Some (one_row (js "bad!") !! js "bad!")
  /\ status (response o) = 400%nat
  /\ response o <> CodeConflict
  /\ store o = one_row (js "bad!").
Proof.
  split; [by eexists; apply lookup_singleton_eq|].
  pose proof (post_link_invalid_customCode zero_env (one_row (js "bad!"))
                (Some (js "https://example.com/docs")) (js "bad!")) as H.
  destruct H as (H1 & H2 & H3 & _).
  - discriminate.
  - vm_compute. reflexivity.
  - split; [exact H1 | split; [exact H2 | exact H3]].
Defined.

(** C7. Without a [customCode], [POST /api/links] with a valid target calls
    the generator at least once and at most 5 times, each candidate being
    looked up in the table: the candidates are the successive draws, and
    every one that led to another attempt was in use.  When the five
    candidates are all in use the answer is [GenerationExhausted] (500) and
    the table is left as it was. *)
Theorem post_link_generation env st targetUrl customCode :
  valid_target targetUrl ->
  truthy customCode = false ->
  let o := post_link env st targetUrl customCode in
  let gen := fun j => generateRandomCode (draws env j) in
  (1 <= length (candidates o) <= 5)%nat
  /\ candidates o = map gen (seq 0 (length (candidates o)))
  /\ (forall j, (S j < length (candidates o))%nat -> is_Some (st !! gen j))
  /\ ((forall j, (j < 5)%nat -> is_Some (st !! gen j)) ->
      response o = GenerationExhausted
      /\ status (response o) = 500%nat
      /\ store o = st
      /\ length (candidates o) = 5%nat).
Proof.
  intros Hvalid Hcc. apply target_guard in Hvalid. unfold post_link.
  rewrite Hvalid, Hcc.
  destruct (retry_loop_spec st (draws env) 5 0 customCode [])
    as (k & Hk & Hgen & Hused & Hend).
  cbn [app] in Hgen.
  set (r := retry_loop st (draws env) 0 5 customCode []) in *.
  assert (Hlen : length (generated r) = k)
    by by rewrite Hgen, length_map, length_seq.
  destruct (foundUnique r) eqn:Hfound; cbn [negb].
  - destruct Hend as (j & -> & Hsc & Hfree).
    destruct (save_link_response env st (loop_shortCode r)
                (ToString targetUrl) (generated r)) as (_ & _ & ->).
    rewrite Hlen. split; [lia|]. split; [done|]. split.
    + intros j' Hj'. apply Hused. lia.
    + intros Hall. destruct (Hall j) as [l Hl]; [lia|].
      simpl in Hfree. congruence.
  - destruct Hend as [-> Hall]. cbn [candidates response store].
    rewrite Hlen. split; [lia|]. split; [done|]. split.
    + intros j' Hj'. apply Hall. lia.
    + done.
Qed.

Lemma post_link_generation_witness :
  let o := post_link zero_env (one_row (js "AAAAAA"))
             (Some (js "https://example.com/docs")) None in
  response o = GenerationExhausted
  /\ store o = one_row (js "AAAAAA")
  /\ length (candidates o) = 5%nat.
Proof.
  assert (Hv : valid_target (Some (js "https://example.com/docs")))
    by (apply target_guard; vm_compute; reflexivity).
  assert (Hall : forall j, (j < 5)%nat ->
            is_Some (one_row (js "AAAAAA")
                       !! generateRandomCode (draws zero_env j))).
  { intros j _. change (generateRandomCode (draws zero_env j)) with (js "AAAAAA").
    eexists. apply lookup_singleton_eq. }
  destruct (post_link_generation zero_env (one_row (js "AAAAAA"))
              (Some (js "https://example.com/docs")) None Hv eq_refl)
    as (_ & _ & _ & H).
  destruct (H Hall) as (H1 & _ & H3 & H4).
  split; [exact H1 | split; [exact H3 | exact H4]].
Defined.



(** ** Code generator *)

Lemma b64_in_alphabet (i : N) : In (b64 i) base64url_alphabet.
Proof.
  unfold b64. apply nth_In.
  change 63 with (N.ones 6). rewrite N.land_ones.
  change (length base64url_alphabet) with 64%nat.
  pose proof (N.mod_lt i (2 ^ 6)). lia.
Qed.

Lemma base64url_in_alphabet (bs : list N) :
  Forall (fun c => In c base64url_alphabet) (base64url bs).
Proof.
  assert (H : forall n bs, (length bs <= n)%nat ->
            Forall (fun c => In c base64url_alphabet) (base64url bs)).
  { clear bs. induction n as [|n IH]; intros bs Hn.
    - destruct bs; [constructor | simpl in Hn; lia].
    - destruct bs as [|b0 [|b1 [|b2 rest]]]; cbn [base64url].
      + constructor.
      + repeat (apply Forall_cons; split; [apply b64_in_alphabet|]).
        constructor.
      + repeat (apply Forall_cons; split; [apply b64_in_alphabet|]).
        constructor.
      + repeat (apply Forall_cons; split; [apply b64_in_alphabet|]).
        apply IH. simpl in Hn. lia. }
  by apply (H (length bs)).
Qed.

Lemma alphabet_alnum (c : N) :
  In c base64url_alphabet ->
  class_matches false [CChar 45; CChar 95] c = false ->
  alphanumeric c.
Proof.
  assert (H : forallb (fun c => class_matches false [CChar 45; CChar 95] c
                        || class_matches false
                             [CRange 65 90; CRange 97 122; CRange 48 57] c)
                      base64url_alphabet = true) by (vm_compute; reflexivity).
  rewrite forallb_forall in H. intros Hc Hno. specialize (H c Hc).
  rewrite Hno in H. by apply class_alnum.
Qed.

(** What the generator does guarantee: alphanumeric code units, and no more
    of them than the length it drew. *)
Lemma generateRandomCode_alphanumeric (d : Draw) :
  Forall alphanumeric (generateRandomCode d)
  /\ (length (generateRandomCode d) <= N.to_nat (floor3 d + 6))%nat.
Proof.
  unfold generateRandomCode. split; [|rewrite length_take; lia].
  apply Forall_take. unfold remove_class. rewrite List.Forall_forall.
  intros c [Hc Hkeep]%filter_In. apply negb_true_iff in Hkeep.
  apply alphabet_alnum; [|done].
  pose proof (base64url_in_alphabet (bytes d)) as H.
  rewrite List.Forall_forall in H. by apply H.
Qed.

Example generateRandomCode_zero : generateRandomCode zero_draw = js "AAAAAA".
Proof. vm_compute. reflexivity. Qed.

Example generateRandomCode_dashes :
  generateRandomCode {| floor3 := 2; bytes := [251; 239; 190; 0; 16; 131] |}
  = js "ABCD".
Proof. vm_compute. reflexivity. Qed.

(** C3 at a failing input. Six octets [0xff] encode to ["________"]; with
    the underscores removed nothing is left, so the generator returns the
    empty string, whose length is none of 6, 7, 8 and which fails
    [CODE_REGEX]; [POST /api/links] without a [customCode] then creates a
    link under that empty [shortCode]. *)
Theorem generateRandomCode_empty :
  draw_ok ff_draw
  /\ base64url (bytes ff_draw) = js "________"
  /\ generateRandomCode ff_draw = []
  /\ test CODE_REGEX (generateRandomCode ff_draw) = false
  /\ response (post_link ff_env ∅ (Some (js "https://example.com/docs")) None)
     = Json 201 (JCreated msg_created
         {| id := 7; shortCode := []; targetUrl := js "https://example.com/docs";
            totalClicks := 0; createdAt := 1000; lastClickedAt := None |}).
Proof.
  split.
  { unfold draw_ok. simpl. split; [lia|]. split; [done|].
    repeat constructor; lia. }
  repeat split; vm_compute; reflexivity.
Qed.

Example base64url_hello :
  base64url (js "hello!") = js "aGVsbG8h" /\ base64url (js "Ma") = js "TWE".
Proof. split; vm_compute; reflexivity. Qed.

(** ** Redirect: [GET /:code] *)

Lemma redirect_found (now : N) (st : gmap jsstring Link) (code : jsstring)
    (l : Link) :
  st !! code = Some l ->
  redirect now st code = (Redirect 302 (targetUrl l), <[code := click now l]> st).
Proof. intros Hl. unfold redirect, prisma_update. by rewrite Hl. Qed.

(** C1. [GET /:code] on an existing code answers 302 with the row's
    [targetUrl] and replaces the row, in one update of the table, by the
    row with [totalClicks] one higher and [lastClickedAt] set to the current
    time, every other row and every other field staying as it was; on an
    unknown code it answers 404 and the table is unchanged. *)
Theorem redirect_spec (now : N) (st : gmap jsstring Link) (code : jsstring) :
  (forall l, st !! code = Some l ->
     redirect now st code
       = (Redirect 302 (targetUrl l), <[code := click now l]> st)
     /\ totalClicks (click now l) = totalClicks l + 1
     /\ lastClickedAt (click now l) = Some now
     /\ (id (click now l), shortCode (click now l), targetUrl (click now l),
         createdAt (click now l))
        = (id l, shortCode l, targetUrl l, createdAt l)
     /\ (forall c, c <> code -> (redirect now st code).2 !! c = st !! c)
     /\ dom (redirect now st code).2 = dom st)
  /\ (st !! code = None ->
      redirect now st code = (Send 404 (Some txt_not_found), st)
      /\ status (redirect now st code).1 = 404%nat).
Proof.
  unfold redirect, prisma_update. split.
  - intros l Hl. rewrite Hl. cbn [fst snd]. repeat split.
    + intros c Hc. by rewrite lookup_insert_ne.
    + by apply dom_insert_lookup_L.
  - intros Hnone. by rewrite Hnone.
Qed.

Lemma redirect_spec_witness :
  redirect 2000 (one_row (js "airocks7")) (js "airocks7")
    = (Redirect 302 (js "https://example.com/docs"),
       <[js "airocks7" := click 2000 (docs_link (js "airocks7") 3 500)]>
         (one_row (js "airocks7")))
  /\ redirect 2000 (one_row (js "airocks7")) (js "nothere1")
     = (Send 404 (Some txt_not_found), one_row (js "airocks7")).
Proof.
  split.
  - apply (proj1 (redirect_spec 2000 (one_row (js "airocks7")) (js "airocks7"))
             (docs_link (js "airocks7") 3 500)).
    apply lookup_singleton_eq.
  - apply (proj2 (redirect_spec 2000 (one_row (js "airocks7")) (js "nothere1"))).
    apply lookup_singleton_ne. discriminate.
Defined.

(** ** Redirects in flight together *)

(** Served alone, each program is its handler. *)
Lemma retry_prog_alone (st : gmap jsstring Link) (draws : nat -> Draw)
    (found : option jsstring -> Prog) (exhausted : Prog) (n : nat) :
  forall i shortCode tried,
    run_alone (retry_prog draws i n found exhausted) st
    = if foundUnique (retry_loop st draws i n shortCode tried)
      then run_alone (found (loop_shortCode
                               (retry_loop st draws i n shortCode tried))) st
      else run_alone exhausted st.
Proof.
  induction n as [|n IH]; intros i shortCode tried; [done|].
  cbn [retry_prog retry_loop run_alone].
  destruct (findUnique st (generateRandomCode (draws i))); [apply IH | done].
Qed.

Lemma handler_prog_alone (req : Request) (st : gmap jsstring Link) :
  run_alone (handler_prog req) st = handle req st.
Proof.
  assert (Hsave : forall env sc url tried,
            run_alone (save_prog env sc url) st
            = (response (save_link env st sc url tried),
               store (save_link env st sc url tried))).
  { intros env sc url tried. unfold save_prog, save_link. cbn [run_alone].
    destruct (prisma_create st (new_id env) (now env) sc url 0) as [st' [[]|l]];
      done. }
  destruct req as [env t cc| |c|c|now c]; cbn [handler_prog handle].
  - unfold post_prog, post_link.
    destruct (negb (truthy t) || negb (test URL_REGEX (ToString t))); [done|].
    destruct (truthy cc).
    + destruct (negb (test CODE_REGEX (ToString cc))); [done | apply Hsave].
    + rewrite (retry_prog_alone st (draws env) _ _ 5 0 cc []).
      destruct (foundUnique _); [apply Hsave | done].
  - done.
  - unfold get_prog, get_link. cbn [run_alone]. by destruct (findUnique st c).
  - unfold delete_prog, delete_link. cbn [run_alone].
    by destruct (prisma_delete st c) as [st' [[]|l]].
  - unfold redirect_prog, redirect. cbn [run_alone].
    by destruct (prisma_update st c (click now)) as [st' [[]|l]].
Qed.

(** A request that spares the row still spares it after any of its calls,
    and the call leaves the row as it is. *)
Lemma spares_step (code : jsstring) (p : Prog) (st : gmap jsstring Link) :
  spares code p ->
  is_Some (st !! code) ->
  spares code (step p st).1 /\ (step p st).2 !! code = st !! code.
Proof.
  intros Hp [l Hl]. destruct p as [r|c k|id0 now0 c url clicks k|c d k|c k|k];
    cbn [step spares] in *.
  - done.
  - split; [apply Hp | done].
  - unfold prisma_create. destruct c as [c|]; [|split; [apply Hp | done]].
    destruct (st !! c) eqn:Hc; cbn -[spares]; [split; [apply Hp | done]|].
    split; [apply Hp|]. rewrite lookup_insert_ne; [done | congruence].
  - destruct Hp as [Hne Hk]. unfold prisma_update.
    destruct (st !! c); cbn -[spares]; (split; [apply Hk|]); [|done].
    by rewrite lookup_insert_ne.
  - destruct Hp as [Hne Hk]. unfold prisma_delete.
    destruct (st !! c); cbn -[spares]; (split; [apply Hk|]); [|done].
    by rewrite lookup_delete_ne.
  - split; [apply Hp | done].
Qed.

Lemma handler_prog_spares (code : jsstring) (req : Request) :
  req <> DeleteLink code ->
  is_redirect_on code req = false ->
  spares code (handler_prog req).
Proof.
  intros Hdel Hred. destruct req as [env t cc| |c|c|now c];
    cbn [handler_prog is_redirect_on] in *.
  - assert (Hsave : forall sc url, spares code (save_prog env sc url)) by done.
    assert (Hretry : forall n i, spares code
              (retry_prog (draws env) i n
                 (fun sc => save_prog env sc (ToString t))
                 (Return GenerationExhausted))).
    { induction n as [|n IH]; intros i; [done|].
      cbn [retry_prog spares]. intros [l|]; [apply IH | apply Hsave]. }
    unfold post_prog.
    repeat match goal with
           | |- context [if ?b then _ else _] => destruct b
           end; done.
  - done.
  - done.
  - cbn [delete_prog spares]. split; [congruence | done].
  - apply bool_decide_eq_false in Hred. cbn [redirect_prog spares].
    split; [done | done].
Qed.

Lemma clicks_done_insert (code : jsstring) (reqs : list Request)
    (pool : list Prog) (i : nat) (req : Request) (p p' : Prog) :
  reqs !! i = Some req ->
  pool !! i = Some p ->
  (clicks_done code reqs (<[i := p']> pool)
   + (if is_redirect_on code req && is_return p then 1 else 0)
   = clicks_done code reqs pool
     + (if is_redirect_on code req && is_return p' then 1 else 0))%nat.
Proof.
  revert pool i. induction reqs as [|r reqs IH]; intros pool i Hreq Hp; [done|].
  destruct pool as [|q pool]; [done|]. destruct i as [|i].
  - injection Hreq as ->. injection Hp as ->. simpl.
    destruct (is_redirect_on code req && is_return p),
      (is_redirect_on code req && is_return p'); lia.
  - simpl. simpl in Hreq, Hp. specialize (IH pool i Hreq Hp).
    destruct (is_redirect_on code r && is_return q); lia.
Qed.

Lemma clicks_done_start (code : jsstring) (reqs : list Request) :
  clicks_done code reqs (map handler_prog reqs) = 0%nat.
Proof.
  induction reqs as [|req reqs IH]; [done|]. cbn [map clicks_done].
  rewrite IH. destruct req; cbn [is_redirect_on andb]; try done.
  cbn [handler_prog redirect_prog is_return]. by rewrite andb_false_r.
Qed.

Lemma clicks_done_all (code : jsstring) (reqs : list Request)
    (pool : list Prog) :
  length pool = length reqs ->
  (forall i req p, reqs !! i = Some req -> pool !! i = Some p ->
     is_redirect_on code req = true -> is_return p = true) ->
  clicks_done code reqs pool = length (List.filter (is_redirect_on code) reqs).
Proof.
  revert pool. induction reqs as [|req reqs IH]; intros pool Hlen Hall; [done|].
  destruct pool as [|p pool]; [done|]. cbn [clicks_done List.filter].
  rewrite (IH pool).
  - destruct (is_redirect_on code req) eqn:Hred; [|done].
    by rewrite (Hall 0%nat req p eq_refl eq_refl Hred).
  - by injection Hlen.
  - intros i r q Hr Hq. by apply (Hall (S i)).
Qed.

Lemma lookup_map {A B} (f : A -> B) (xs : list A) (i : nat) :
  map f xs !! i = f <$> xs !! i.
Proof.
  revert i. induction xs as [|x xs IH]; intros [|i]; simpl; try done.
Qed.

(** One call of one request keeps the agreement. *)
Lemma pool_inv_step (code : jsstring) (l : Link) (reqs : list Request)
    (pool : list Prog) (st : gmap jsstring Link) (i : nat) (p : Prog) :
  pool_inv code l reqs pool st ->
  pool !! i = Some p ->
  pool_inv code l reqs (<[i := (step p st).1]> pool) (step p st).2.
Proof.
  intros (Hlen & Hthreads & l' & Hl' & Hurl & Hclicks) Hp.
  assert (Hi : (i < length reqs)%nat)
    by (rewrite <- Hlen; by eapply lookup_lt_Some).
  destruct (lookup_lt_is_Some_2 reqs i Hi) as [req Hreq].
  pose proof (Hthreads i req p Hreq Hp) as Hok.
  pose proof (clicks_done_insert code reqs pool i req p (step p st).1 Hreq Hp)
    as Hcount.
  assert (Hrest : forall p' j r q, thread_ok code l req p' ->
            reqs !! j = Some r -> <[i := p']> pool !! j = Some q ->
            thread_ok code l r q).
  { intros p' j r q Hp' Hr Hq. destruct (decide (j = i)) as [->|Hne].
    - rewrite list_lookup_insert_eq in Hq by by eapply lookup_lt_Some.
      injection Hq as <-. assert (r = req) as -> by congruence. done.
    - rewrite list_lookup_insert_ne in Hq by done. by eapply Hthreads. }
  unfold thread_ok in Hok. destruct (is_redirect_on code req) eqn:Hred.
  - destruct Hok as (t & -> & [-> | ->]).
    + cbn [step redirect_prog]. unfold prisma_update. rewrite Hl'. cbn [fst snd].
      split; [by rewrite length_insert|]. split.
      { intros j r q. apply Hrest. unfold thread_ok. rewrite Hred.
        exists t. split; [done|]. right. cbn [click targetUrl]. by rewrite Hurl. }
      exists (click t l'). split; [apply lookup_insert_eq|]. split; [done|].
      cbn [step redirect_prog fst is_return andb] in Hcount.
      unfold prisma_update in Hcount. rewrite Hl' in Hcount.
      cbn [fst is_return] in Hcount. cbn [click totalClicks]. lia.
    + cbn [step fst snd]. rewrite list_insert_id by done.
      split; [done|]. split; [done|]. by exists l'.
  - destruct (spares_step code p st Hok (mk_is_Some _ _ Hl')) as [Hsp Hrow].
    split; [by rewrite length_insert|]. split.
    { intros j r q. apply Hrest. unfold thread_ok. by rewrite Hred. }
    exists l'. split; [by rewrite Hrow|]. split; [done|].
    cbn [andb] in Hcount. lia.
Qed.

Lemma pool_inv_exec (code : jsstring) (l : Link) (reqs : list Request)
    (sched : list nat) :
  forall pool st,
    pool_inv code l reqs pool st ->
    pool_inv code l reqs (exec sched pool st).1 (exec sched pool st).2.
Proof.
  induction sched as [|i sched IH]; intros pool st Hinv; [done|].
  cbn [exec]. destruct (pool !! i) as [p|] eqn:Hp; [|by apply IH].
  pose proof (pool_inv_step code l reqs pool st i p Hinv Hp) as Hstep.
  destruct (step p st) as [p' st']. by apply IH.
Qed.

(** An answer, once given, stays. *)
Lemma exec_return (sched : list nat) (i : nat) (r : Response) :
  forall pool st,
    pool !! i = Some (Return r) ->
    (exec sched pool st).1 !! i = Some (Return r).
Proof.
  induction sched as [|j sched IH]; intros pool st Hi; [done|].
  cbn [exec]. destruct (pool !! j) as [p|] eqn:Hp; [|by apply IH].
  destruct (step p st) as [p' st'] eqn:Hstep. apply IH.
  destruct (decide (j = i)) as [->|Hne].
  - assert (p = Return r) as -> by congruence. cbn in Hstep.
    injection Hstep as <- <-. by rewrite list_insert_id.
  - by rewrite list_lookup_insert_ne.
Qed.

(** A redirect on [code] whose call has been executed has answered. *)
Lemma exec_served (code : jsstring) (l : Link) (reqs : list Request)
    (sched : list nat) (i : nat) (t : N) :
  forall pool st,
    pool_inv code l reqs pool st ->
    reqs !! i = Some (GetCode t code) ->
    In i sched ->
    (exec sched pool st).1 !! i = Some (Return (Redirect 302 (targetUrl l))).
Proof.
  induction sched as [|j sched IH]; intros pool st Hinv Hreq Hin; [done|].
  cbn [exec].
  assert (Hi : is_Some (pool !! i)).
  { apply lookup_lt_is_Some_2. destruct Hinv as (-> & _).
    by eapply lookup_lt_Some. }
  destruct (decide (j = i)) as [->|Hne].
  - destruct Hi as [p Hp]. rewrite Hp.
    destruct Hinv as (Hlen & Hth & l' & Hl' & Hurl & _).
    pose proof (Hth i _ p Hreq Hp) as Hok. unfold thread_ok in Hok.
    cbn [is_redirect_on] in Hok. rewrite bool_decide_eq_true_2 in Hok by done.
    destruct Hok as (t' & [= <-] & [-> | ->]).
    + cbn [step redirect_prog]. unfold prisma_update. rewrite Hl'.
      apply exec_return.
      rewrite list_lookup_insert_eq by by eapply lookup_lt_Some.
      cbn [click targetUrl]. by rewrite Hurl.
    + cbn [step]. apply exec_return. by rewrite list_insert_id.
  - destruct Hin as [-> | Hin]; [done|].
    destruct (pool !! j) as [p|] eqn:Hp; [|by apply IH].
    pose proof (pool_inv_step code l reqs pool st j p Hinv Hp) as Hstep.
    destruct (step p st) as [p' st']. by apply IH.
Qed.

(** C2. Requests in flight together, their Prisma calls executed in any
    order.  Let [reqs] be any requests, [N] of them redirects on an
    existing code and none a delete of that code, and [sched] any order of
    execution of their calls.  The row never loses a click: at every
    moment its [totalClicks] is the count before the burst plus the number
    of those redirects answered so far, and its target is unchanged; every
    redirect on the code whose call has been executed has been answered 302
    with the row's [targetUrl]; and once the call of each of them has been
    executed, [totalClicks] is the count before the burst plus [N]. *)
Theorem redirect_concurrent (reqs : list Request) (sched : list nat)
    (st : gmap jsstring Link) (code : jsstring) (l : Link) :
  st !! code = Some l ->
  Forall (fun req => req <> DeleteLink code) reqs ->
  (exists l',
     (exec sched (map handler_prog reqs) st).2 !! code = Some l'
     /\ targetUrl l' = targetUrl l
     /\ totalClicks l'
        = totalClicks l
          + N.of_nat (clicks_done code reqs
                        (exec sched (map handler_prog reqs) st).1))
  /\ (forall i t, reqs !! i = Some (GetCode t code) -> In i sched ->
        (exec sched (map handler_prog reqs) st).1 !! i
        = Some (Return (Redirect 302 (targetUrl l))))
  /\ ((forall i t, reqs !! i = Some (GetCode t code) -> In i sched) ->
      exists l',
        (exec sched (map handler_prog reqs) st).2 !! code = Some l'
        /\ totalClicks l'
           = totalClicks l
             + N.of_nat (length (List.filter (is_redirect_on code) reqs))).
Proof.
  intros Hl Hnodel.
  assert (Hstart : pool_inv code l reqs (map handler_prog reqs) st).
  { split; [by rewrite length_map|]. split.
    - intros i req p Hreq Hp.
      assert (p = handler_prog req) as ->.
      { rewrite lookup_map, Hreq in Hp. by injection Hp. }
      unfold thread_ok. destruct (is_redirect_on code req) eqn:Hred.
      + destruct req; try discriminate Hred. cbn [is_redirect_on] in Hred.
        apply bool_decide_eq_true in Hred as ->. eauto.
      + apply handler_prog_spares; [|done].
        rewrite Forall_forall in Hnodel. apply Hnodel.
        by eapply list_elem_of_lookup_2.
    - exists l. rewrite clicks_done_start. split; [done|]. split; [done | lia]. }
  pose proof (pool_inv_exec code l reqs sched _ _ Hstart) as Hend.
  pose proof Hend as (Hlen & Hthreads & l' & Hl' & Hurl & Hclicks).
  split; [by exists l'|]. split.
  { intros i t Hreq Hin. by apply (exec_served code l reqs sched i t). }
  intros Hall. exists l'. split; [done|]. rewrite Hclicks. do 2 f_equal.
  apply clicks_done_all; [done|].
  intros i req p Hreq Hp Hred.
  destruct req; try discriminate Hred. cbn [is_redirect_on] in Hred.
  apply bool_decide_eq_true in Hred as ->.
  rewrite (exec_served code l reqs sched i now0 _ _ Hstart Hreq) in Hp
    by by eapply Hall.
  by injection Hp as <-.
Qed.

Lemma redirect_concurrent_witness :
  exists l',
    (exec [3; 1; 3; 0; 2; 3]%nat
       (map handler_prog
          [ GetCode 2000 (js "airocks7"); GetCode 2001 (js "airocks7");
            GetCode 2001 (js "airocks7");
            PostLinks zero_env (Some (js "https://example.com/docs")) None ])
       (one_row (js "airocks7"))).2 !! js "airocks7" = Some l'
    /\ totalClicks l' = 3 + 3.
Proof.
  destruct (redirect_concurrent
              [ GetCode 2000 (js "airocks7"); GetCode 2001 (js "airocks7");
                GetCode 2001 (js "airocks7");
                PostLinks zero_env (Some (js "https://example.com/docs")) None ]
              [3; 1; 3; 0; 2; 3]%nat
              (one_row (js "airocks7")) (js "airocks7")
              (docs_link (js "airocks7") 3 500))
    as (_ & _ & H).
  - apply lookup_singleton_eq.
  - repeat constructor; discriminate.
  - destruct H as (l' & H1 & H2).
    + intros i t Hi.
      destruct i as [|[|[|[|i]]]]; cbn in *; try discriminate Hi; tauto.
    + exists l'. split; [exact H1 | exact H2].
Defined.

(** The order of the calls matters to a handler that reads and then
    writes: two such requests whose reads both come before the writes leave
    the 3-click row at 4, where the two redirects of [index.js] leave it at
    5 under the same order. *)
Example read_then_write_loses_a_click :
  (totalClicks <$>
     (exec [0; 1; 0; 1]%nat
        [read_then_write_prog 2000 (js "airocks7");
         read_then_write_prog 2001 (js "airocks7")]
        (one_row (js "airocks7"))).2 !! js "airocks7") = Some 4
  /\ (totalClicks <$>
        (exec [0; 1; 0; 1]%nat
           [redirect_prog 2000 (js "airocks7");
            redirect_prog 2001 (js "airocks7")]
           (one_row (js "airocks7"))).2 !! js "airocks7") = Some 5.
Proof. split; vm_compute; reflexivity. Qed.

(** ** The click counter across the operations *)

(** [POST /api/links] leaves the table as it is or adds one row, under a
    free code, with no clicks. *)
Lemma post_link_store (env : CreateEnv) (st : gmap jsstring Link)
    (targetUrl customCode : option jsstring) :
  store (post_link env st targetUrl customCode) = st
  \/ exists c l',
       st !! c = None
       /\ store (post_link env st targetUrl customCode) = <[c := l']> st
       /\ totalClicks l' = 0 /\ lastClickedAt l' = None.
Proof.
  assert (Hsave : forall sc url tried,
            store (save_link env st sc url tried) = st
            \/ exists c l', st !! c = None
                 /\ store (save_link env st sc url tried) = <[c := l']> st
                 /\ totalClicks l' = 0 /\ lastClickedAt l' = None).
  { intros sc url tried. unfold save_link, prisma_create.
    destruct sc as [c|]; [|by left].
    destruct (st !! c) eqn:Hc; [by left|]. right. by eexists c, _. }
  unfold post_link.
  destruct (negb (truthy targetUrl) || negb (test URL_REGEX (ToString targetUrl)));
    [by left|].
  destruct (truthy customCode).
  - destruct (negb (test CODE_REGEX (ToString customCode))); [by left|].
    apply Hsave.
  - destruct (negb (foundUnique _)); [by left | apply Hsave].
Qed.

(** What one operation does to a row that is in the table. *)
Lemma handle_row (req : Request) (st : gmap jsstring Link) (code : jsstring)
    (l : Link) :
  st !! code = Some l ->
  ((handle req st).2 !! code = None /\ req = DeleteLink code)
  \/ (handle req st).2 !! code = Some l
  \/ (exists now, req = GetCode now code
        /\ (handle req st).2 !! code = Some (click now l)
        /\ totalClicks (click now l) = totalClicks l + 1
        /\ lastClickedAt (click now l) = Some now).
Proof.
  intros Hl. destruct req as [env t cc| |c|c|now c]; cbn [handle snd].
  - destruct (post_link_store env st t cc) as [-> | (c & l0 & Hc & -> & _)];
      [by right; left|].
    right; left. rewrite lookup_insert_ne; [done | congruence].
  - by right; left.
  - by right; left.
  - unfold delete_link, prisma_delete.
    destruct (st !! c) eqn:Hc; cbn [snd]; [|by right; left].
    destruct (decide (c = code)) as [->|Hne].
    + left. by rewrite lookup_delete_eq.
    + right; left. by rewrite lookup_delete_ne.
  - unfold redirect, prisma_update.
    destruct (st !! c) as [l0|] eqn:Hc; cbn [snd]; [|by right; left].
    destruct (decide (c = code)) as [->|Hne].
    + right; right. exists now. rewrite lookup_insert_eq.
      assert (l0 = l) as -> by congruence. done.
    + right; left. by rewrite lookup_insert_ne.
Qed.

(** C8. [totalClicks] is a natural number; over one operation of the
    registry, whichever it is: a row that appears under a code was created
    by [POST /api/links] with [totalClicks = 0] and no [lastClickedAt]; a
    row that was there is either removed (by [DELETE] on its code), or left
    exactly as it was, or, by a redirect on its code, replaced by [click],
    which adds 1 to [totalClicks] together with setting [lastClickedAt].
    Hence the counter of a row never decreases. *)
Theorem totalClicks_step (req : Request) (st : gmap jsstring Link)
    (code : jsstring) :
  (forall l', st !! code = None -> (handle req st).2 !! code = Some l' ->
     totalClicks l' = 0 /\ lastClickedAt l' = None
     /\ exists env t cc, req = PostLinks env t cc)
  /\ (forall l, st !! code = Some l ->
        ((handle req st).2 !! code = None /\ req = DeleteLink code)
        \/ (handle req st).2 !! code = Some l
        \/ (exists now, req = GetCode now code
              /\ (handle req st).2 !! code = Some (click now l)
              /\ totalClicks (click now l) = totalClicks l + 1
              /\ lastClickedAt (click now l) = Some now))
  /\ (forall l l', st !! code = Some l -> (handle req st).2 !! code = Some l' ->
        totalClicks l <= totalClicks l').
Proof.
  pose proof (fun l => handle_row req st code l) as Hstep.
  split; [|split; [done|]].
  - intros l' Hnone Hl'. destruct req as [env t cc| |c|c|now c];
      cbn [handle snd] in Hl'.
    + destruct (post_link_store env st t cc) as [Heq | (c & l0 & Hc & Heq & H0 & Hlast)];
        rewrite Heq in Hl'; [congruence|].
      destruct (decide (c = code)) as [->|Hne].
      * rewrite lookup_insert_eq in Hl'. injection Hl' as <-. eauto 6.
      * rewrite lookup_insert_ne in Hl' by done. congruence.
    + congruence.
    + congruence.
    + unfold delete_link, prisma_delete in Hl'.
      destruct (st !! c) eqn:Hc; cbn [snd] in Hl'; [|congruence].
      apply lookup_delete_Some in Hl' as [_ Hl']. congruence.
    + unfold redirect, prisma_update in Hl'.
      destruct (st !! c) as [l0|] eqn:Hc; cbn [snd] in Hl'; [|congruence].
      destruct (decide (c = code)) as [->|Hne]; [congruence|].
      rewrite lookup_insert_ne in Hl' by done. congruence.
  - intros l l' Hl Hl'.
    destruct (Hstep l Hl) as [[Hgone _] | [Hsame | (now & _ & Hclick & Hplus & _)]].
    + congruence.
    + assert (l' = l) as -> by congruence. lia.
    + assert (l' = click now l) as -> by congruence. lia.
Qed.

Lemma totalClicks_step_witness :
  totalClicks (docs_link (js "airocks7") 3 500) <= 4
  /\ (handle (GetCode 2000 (js "airocks7")) (one_row (js "airocks7"))).2
       !! js "airocks7"
     = Some (click 2000 (docs_link (js "airocks7") 3 500)).
Proof.
  assert (Hl : one_row (js "airocks7") !! js "airocks7"
               = Some (docs_link (js "airocks7") 3 500))
    by apply lookup_singleton_eq.
  assert (Hl' : (handle (GetCode 2000 (js "airocks7")) (one_row (js "airocks7"))).2
                  !! js "airocks7"
                = Some (click 2000 (docs_link (js "airocks7") 3 500)))
    by apply lookup_insert_eq.
  split; [|exact Hl'].
  exact (proj2 (proj2 (totalClicks_step (GetCode 2000 (js "airocks7"))
                         (one_row (js "airocks7")) (js "airocks7")))
               _ _ Hl Hl').
Defined.

(** Over any sequence of operations that does not delete the code, the row
    stays and its counter does not go down. *)
Lemma totalClicks_run (reqs : list Request) (st : gmap jsstring Link)
    (code : jsstring) (l : Link) :
  Forall (fun req => req <> DeleteLink code) reqs ->
  st !! code = Some l ->
  exists l', (run reqs st).2 !! code = Some l' /\ totalClicks l <= totalClicks l'.
Proof.
  revert st l. induction reqs as [|req reqs IH]; intros st l Hnodel Hl.
  - exists l. split; [done | lia].
  - apply Forall_cons in Hnodel as [Hreq Hnodel]. cbn [run].
    pose proof (handle_row req st code l Hl) as Hstep.
    destruct (handle req st) as [r st1]. cbn [snd] in Hstep.
    destruct (run reqs st1) as [rs st2] eqn:Hrun. cbn [snd].
    destruct Hstep as [[_ Hdel] | [Hsame | (now & _ & Hclick & Hplus & _)]];
      [done | |].
    + destruct (IH st1 l Hnodel Hsame) as (l' & Hl' & Hle).
      rewrite Hrun in Hl'. eauto.
    + destruct (IH st1 (click now l) Hnodel Hclick) as (l' & Hl' & Hle).
      rewrite Hrun in Hl'. exists l'. split; [done | lia].
Qed.

(** ** List: [GET /api/links] *)

#[global] Instance createdAt_desc_trans : Transitive createdAt_desc.
Proof. unfold createdAt_desc. intros a b c Hab Hbc. lia. Qed.

#[global] Instance createdAt_desc_total : Total createdAt_desc.
Proof. unfold createdAt_desc. intros a b. lia. Qed.

(** C9. [GET /api/links] answers 200 with all the rows of the table, each
    once and none else, most recently created first: every row comes before
    the rows whose [createdAt] is smaller.  Nothing is cut off (the answer
    has as many entries as the table has rows), and an empty table gives
    the empty array. *)
Theorem list_links_spec (st : gmap jsstring Link) :
  exists ls,
    list_links st = Json 200 (JLinks ls)
    /\ ls ≡ₚ (map_to_list st).*2
    /\ (forall l, l ∈ ls <-> exists c, st !! c = Some l)
    /\ length ls = size st
    /\ StronglySorted createdAt_desc ls
    /\ (forall i j a b, ls !! i = Some a -> ls !! j = Some b -> (i < j)%nat ->
          createdAt b <= createdAt a)
    /\ (st = ∅ -> ls = []).
Proof.
  exists (findMany_createdAt_desc st). unfold findMany_createdAt_desc.
  pose proof (merge_sort_Permutation createdAt_desc (map_to_list st).*2) as Hperm.
  pose proof (StronglySorted_merge_sort createdAt_desc (map_to_list st).*2)
    as Hsorted.
  split; [done|]. split; [done|]. split; [|split; [|split; [done|split]]].
  - intros l. rewrite Hperm, list_elem_of_fmap. split.
    + intros ([c l0] & -> & Hin%elem_of_map_to_list). by exists c.
    + intros (c & Hc). exists (c, l). split; [done|].
      by apply elem_of_map_to_list.
  - by rewrite Hperm, length_fmap, length_map_to_list.
  - revert Hsorted. generalize (merge_sort createdAt_desc (map_to_list st).*2).
    intros ls Hs. induction Hs as [|x ls Hs IH Hx]; intros i j a b Hi Hj Hij.
    + done.
    + destruct j as [|j]; [lia|]. cbn in Hj. destruct i as [|i]; cbn in Hi.
      * injection Hi as ->. rewrite Forall_forall in Hx.
        apply Hx. by eapply list_elem_of_lookup_2.
      * eapply IH; [done | done | lia].
  - intros ->. rewrite map_to_list_empty. reflexivity.
Qed.

(** ** End-to-end runs *)

Example list_links_two_rows :
  list_links (<[js "older1" := docs_link (js "older1") 0 100]>
              (<[js "newer1" := docs_link (js "newer1") 0 200]> ∅))
  = Json 200 (JLinks [docs_link (js "newer1") 0 200; docs_link (js "older1") 0 100]).
Proof. vm_compute. reflexivity. Qed.

Example end_to_end :
  (run [ PostLinks zero_env (Some (js "https://example.com/docs"))
                   (Some (js "airocks7"));
         GetCode 2000 (js "airocks7");
         GetLink (js "airocks7");
         DeleteLink (js "airocks7");
         GetCode 3000 (js "airocks7") ] ∅).1
  = [ Json 201 (JCreated msg_created
        {| id := 7; shortCode := js "airocks7";
           targetUrl := js "https://example.com/docs"; totalClicks := 0;
           createdAt := 1000; lastClickedAt := None |});
      Redirect 302 (js "https://example.com/docs");
      Json 200 (JLink
        {| id := 7; shortCode := js "airocks7";
           targetUrl := js "https://example.com/docs"; totalClicks := 1;
           createdAt := 1000; lastClickedAt := Some 2000 |});
      Send 204 None;
      Send 404 (Some txt_not_found) ].
Proof. vm_compute. reflexivity. Qed.

Example customCode_twice :
  map status
    (run [ PostLinks zero_env (Some (js "https://example.com/docs"))
                     (Some (js "airocks7"));
           PostLinks zero_env (Some (js "https://example.com/other"))
                     (Some (js "airocks7"));
           PostLinks zero_env (Some (js "https://example.com/docs"))
                     (Some (js "invalid!")) ] ∅).1
  = [201; 409; 400]%nat.
Proof. vm_compute. reflexivity. Qed.

(** * Further properties *)

(** ** Create, in full *)

(** Every way [POST /api/links] can end: without touching the table and
    without a 201, or with a new row under a code that was free, which is
    the custom code or the first free one of the draws. *)
Lemma post_link_outcome (env : CreateEnv) (st : gmap jsstring Link)
    (targetUrl customCode : option jsstring) :
  let o := post_link env st targetUrl customCode in
  let gen := fun j => generateRandomCode (draws env j) in
  (store o = st /\ (400 <= status (response o))%nat)
  \/ exists c,
       st !! c = None
       /\ valid_target targetUrl
       /\ ((customCode = Some c /\ c <> [] /\ test CODE_REGEX c = true
            /\ candidates o = [])
           \/ (truthy customCode = false
               /\ exists j, (j < 5)%nat /\ c = gen j
                    /\ (forall i, (i < j)%nat -> is_Some (st !! gen i))
                    /\ candidates o = map gen (seq 0 (S j))))
       /\ response o = Json 201 (JCreated msg_created (new_link env c (ToString targetUrl)))
       /\ store o = <[c := new_link env c (ToString targetUrl)]> st.
Proof.
  cbv zeta. unfold post_link.
  destruct (negb (truthy targetUrl) || negb (test URL_REGEX (ToString targetUrl)))
    eqn:Hguard.
  { left. simpl. split; [done | lia]. }
  apply target_guard in Hguard.
  destruct (truthy customCode) eqn:Hcc.
  - destruct customCode as [c|]; [|done]. cbn [ToString].
    destruct (test CODE_REGEX c) eqn:Hcode; cbn [negb].
    2: { left. simpl. split; [done | lia]. }
    unfold save_link, prisma_create.
    destruct (st !! c) eqn:Hc.
    + left. simpl. split; [done | lia].
    + right. exists c. split; [done|]. split; [done|]. split; [|done].
      left. repeat split; [|done]. by destruct c.
  - destruct (retry_loop_spec st (draws env) 5 0 customCode [])
      as (k & Hk & Hgen & Hused & Hend).
    cbn [app] in Hgen.
    set (r := retry_loop st (draws env) 0 5 customCode []) in *.
    destruct (foundUnique r) eqn:Hfound; cbn [negb].
    2: { left. simpl. split; [done | lia]. }
    destruct Hend as (j & -> & Hsc & Hfree). cbn [Nat.add] in Hsc, Hfree.
    unfold save_link, prisma_create. rewrite Hsc, Hfree.
    right. exists (generateRandomCode (draws env j)).
    split; [done|]. split; [done|]. split; [|done].
    right. split; [done|]. exists j. split; [lia|]. split; [done|].
    split; [|by rewrite Hgen].
    intros i Hi. apply Hused. lia.
Qed.

(** Both scripts carry the same code pattern; its words, whichever copy
    is tested. *)
Lemma code_pattern_test (re : RegExp) (s : jsstring) :
  body re = PRepeat 6 8 (PClass false [CRange 65 90; CRange 97 122; CRange 48 57]) ->
  ignoreCase re = false ->
  test re s = true <-> (6 <= length s <= 8)%nat /\ Forall alphanumeric s.
Proof.
  intros Hbody Hcase. unfold test. rewrite Hbody, Hcase, matches_lang.
  cbn [compile]. change (8 - 6)%nat with 2%nat. rewrite lang_repeat_sym.
  cbn [Nat.add]. rewrite !Forall_forall.
  split; intros [Hl Hf]; (split; [done|]); intros c Hc; apply class_alnum;
    by apply Hf.
Qed.

Lemma CODE_REGEX_words (s : jsstring) :
  test CODE_REGEX s = true ->
  (6 <= length s <= 8)%nat /\ Forall alphanumeric s /\ truthy (Some s) = true.
Proof.
  intros [Hl Hf]%code_pattern_test; [|done..].
  repeat split; [lia | lia | done |]. destruct s; [simpl in Hl; lia | done].
Qed.

(** X1. A custom code that obeys [CODE_REGEX] and is not in use, with a
    valid target: the answer is 201 with the new row, which echoes the code
    and the target, has no clicks and no [lastClickedAt]; the row is stored
    under the code, the generator is not called, and the other rows stay. *)
Theorem post_link_customCode_created (env : CreateEnv)
    (st : gmap jsstring Link) (url code : jsstring) :
  url_rule url ->
  test CODE_REGEX code = true ->
  st !! code = None ->
  let o := post_link env st (Some url) (Some code) in
  response o = Json 201 (JCreated msg_created (new_link env code url))
  /\ store o = <[code := new_link env code url]> st
  /\ candidates o = []
  /\ (forall c, c <> code -> store o !! c = st !! c)
  /\ size (store o) = S (size st).
Proof.
  intros Hurl Hcode Hfree.
  destruct (post_link_outcome env st (Some url) (Some code))
    as [[Hst Herr] | (c & Hc & _ & [(Hcc & _ & _ & Hcand) | [Hcc _]] & Hresp & Hstore)].
  - exfalso. revert Herr. unfold post_link.
    assert (Hv : valid_target (Some url)) by by exists url.
    apply target_guard in Hv. rewrite Hv.
    assert (truthy (Some code) = true) as ->.
    { by apply CODE_REGEX_words. }
    cbn [ToString]. rewrite Hcode. cbn [negb].
    unfold save_link, prisma_create. rewrite Hfree. simpl. lia.
  - injection Hcc as <-. cbn [ToString] in *. cbv zeta.
    rewrite Hresp, Hstore, Hcand. repeat split.
    + intros c' Hne. by rewrite lookup_insert_ne.
    + by apply map_size_insert_None.
  - exfalso. apply CODE_REGEX_words in Hcode as (_ & _ & Ht). congruence.
Qed.

Lemma post_link_customCode_created_witness :
  response (post_link zero_env ∅ (Some (js "https://example.com/docs"))
              (Some (js "airocks7")))
  = Json 201 (JCreated msg_created
      (new_link zero_env (js "airocks7") (js "https://example.com/docs"))).
Proof.
  apply (post_link_customCode_created zero_env ∅
           (js "https://example.com/docs") (js "airocks7")).
  - apply URL_REGEX_test_iff. vm_compute. reflexivity.
  - vm_compute. reflexivity.
  - apply lookup_empty.
Defined.

(** X2. A custom code that obeys [CODE_REGEX] but is already in use, with a
    valid target: the answer is [CodeConflict] (409) and the table, with
    the row that holds the code, is exactly as before. *)
Theorem post_link_customCode_conflict (env : CreateEnv)
    (st : gmap jsstring Link) (url code : jsstring) (l : Link) :
  url_rule url ->
  test CODE_REGEX code = true ->
  st !! code = Some l ->
  let o := post_link env st (Some url) (Some code) in
  response o = CodeConflict
  /\ status (response o) = 409%nat
  /\ store o = st
  /\ store o !! code = Some l.
Proof.
  intros Hurl Hcode Hused. cbv zeta. unfold post_link.
  assert (Hv : valid_target (Some url)) by by exists url.
  apply target_guard in Hv. rewrite Hv.
  assert (truthy (Some code) = true) as ->.
  { by apply CODE_REGEX_words. }
  cbn [ToString]. rewrite Hcode. cbn [negb].
  unfold save_link, prisma_create. rewrite Hused. done.
Qed.

Lemma post_link_customCode_conflict_witness :
  response (post_link zero_env (one_row (js "airocks7"))
              (Some (js "https://example.com/other")) (Some (js "airocks7")))
  = CodeConflict.
Proof.
  apply (post_link_customCode_conflict zero_env (one_row (js "airocks7"))
           (js "https://example.com/other") (js "airocks7")
           (docs_link (js "airocks7") 3 500)).
  - apply URL_REGEX_test_iff. vm_compute. reflexivity.
  - vm_compute. reflexivity.
  - apply lookup_singleton_eq.
Defined.



Lemma findMany_elem (st : gmap jsstring Link) (l : Link) :
  l ∈ findMany_createdAt_desc st <-> exists c, st !! c = Some l.
Proof.
  unfold findMany_createdAt_desc.
  rewrite merge_sort_Permutation, list_elem_of_fmap. split.
  - intros ([c l0] & -> & Hin%elem_of_map_to_list). by exists c.
  - intros (c & Hc). exists (c, l). split; [done|].
    by apply elem_of_map_to_list.
Qed.

(** X4. Whatever path created it, a link answered with 201 can be used at
    once: its code was free before, the row is stored under its code,
    [GET /api/links/:code] returns that row, [GET /:code] redirects to its
    target, the listing contains it; it has the submitted target, no clicks
    and no [lastClickedAt]. *)
Theorem post_link_round_trip (env : CreateEnv) (st : gmap jsstring Link)
    (target custom : option jsstring) (m : string) (l : Link) :
  response (post_link env st target custom) = Json 201 (JCreated m l) ->
  let st' := store (post_link env st target custom) in
  st !! shortCode l = None
  /\ st' !! shortCode l = Some l
  /\ get_link st' (shortCode l) = Json 200 (JLink l)
  /\ (forall now, (redirect now st' (shortCode l)).1 = Redirect 302 (targetUrl l))
  /\ (exists ls, list_links st' = Json 200 (JLinks ls) /\ l ∈ ls)
  /\ target = Some (targetUrl l)
  /\ totalClicks l = 0 /\ lastClickedAt l = None.
Proof.
  intros H201. cbv zeta.
  destruct (post_link_outcome env st target custom)
    as [[_ Herr] | (c & Hc & (url & -> & Hurl) & _ & Hresp & Hstore)].
  { rewrite H201 in Herr. simpl in Herr. lia. }
  rewrite Hresp in H201. injection H201 as _ <-.
  rewrite Hstore. cbn [ToString new_link shortCode targetUrl totalClicks lastClickedAt].
  assert (Hl : (<[c := new_link env c url]> st) !! c = Some (new_link env c url))
    by apply lookup_insert_eq.
  split; [done|]. split; [done|]. split.
  { unfold get_link, findUnique. by rewrite Hl. }
  split.
  { intros now. by rewrite (redirect_found now _ c _ Hl). }
  split; [|done].
  eexists. split; [reflexivity|]. apply findMany_elem. eauto.
Qed.

Lemma post_link_round_trip_witness :
  get_link (store (post_link zero_env ∅ (Some (js "https://example.com/docs")) None))
           (js "AAAAAA")
  = Json 200 (JLink (new_link zero_env (js "AAAAAA") (js "https://example.com/docs"))).
Proof.
  apply (post_link_round_trip zero_env ∅ (Some (js "https://example.com/docs"))
           None msg_created
           (new_link zero_env (js "AAAAAA") (js "https://example.com/docs"))).
  vm_compute. reflexivity.
Defined.

(** ** Delete: [DELETE /api/links/:code] *)

Lemma delete_link_found (st : gmap jsstring Link) (code : jsstring) (l : Link) :
  st !! code = Some l -> delete_link st code = (Send 204 None, delete code st).
Proof. intros Hl. unfold delete_link, prisma_delete. by rewrite Hl. Qed.

Lemma delete_link_missing (st : gmap jsstring Link) (code : jsstring) :
  st !! code = None -> delete_link st code = (Json 404 (JError err_deleted), st).
Proof. intros Hl. unfold delete_link, prisma_delete. by rewrite Hl. Qed.

(** X5. Deleting an existing code answers 204 and removes that row and no
    other; from then on the stats lookup, the redirect and a second delete
    on that code all answer 404 and change nothing. *)
Theorem delete_link_then_gone (st : gmap jsstring Link) (code : jsstring)
    (l : Link) :
  st !! code = Some l ->
  let st' := (delete_link st code).2 in
  (delete_link st code).1 = Send 204 None
  /\ st' !! code = None
  /\ (forall c, c <> code -> st' !! c = st !! c)
  /\ S (size st') = size st
  /\ get_link st' code = Json 404 (JError err_not_found)
  /\ (forall now, redirect now st' code = (Send 404 (Some txt_not_found), st'))
  /\ delete_link st' code = (Json 404 (JError err_deleted), st').
Proof.
  intros Hl. cbv zeta. rewrite (delete_link_found st code l Hl). cbn [fst snd].
  assert (Hgone : delete code st !! code = None) by apply lookup_delete_eq.
  split; [done|]. split; [done|]. split.
  { intros c Hc. by rewrite lookup_delete_ne. }
  split.
  { rewrite map_size_delete, Hl.
    pose proof (map_size_ne_0_lookup_2 st code (mk_is_Some _ _ Hl)). lia. }
  split.
  { unfold get_link, findUnique. by rewrite Hgone. }
  split.
  { intros now. unfold redirect, prisma_update. by rewrite Hgone. }
  by apply delete_link_missing.
Qed.

Lemma delete_link_then_gone_witness :
  (delete_link (one_row (js "airocks7")) (js "airocks7")).1 = Send 204 None
  /\ (delete_link (one_row (js "airocks7")) (js "airocks7")).2 !! js "airocks7"
     = None.
Proof.
  destruct (delete_link_then_gone (one_row (js "airocks7")) (js "airocks7")
              (docs_link (js "airocks7") 3 500)) as (H1 & H2 & _).
  - apply lookup_singleton_eq.
  - split; [exact H1 | exact H2].
Defined.

(** X6. A deleted code is free again: creating a link with it as custom
    code right after the delete answers 201, and the new row starts with no
    clicks and no [lastClickedAt], whatever the deleted row had counted;
    the other rows are those from before the delete. *)
Theorem delete_then_create (env : CreateEnv) (st : gmap jsstring Link)
    (url code : jsstring) (l : Link) :
  st !! code = Some l ->
  url_rule url ->
  test CODE_REGEX code = true ->
  let st1 := (delete_link st code).2 in
  let o := post_link env st1 (Some url) (Some code) in
  response o = Json 201 (JCreated msg_created (new_link env code url))
  /\ store o !! code = Some (new_link env code url)
  /\ totalClicks (new_link env code url) = 0
  /\ (forall c, c <> code -> store o !! c = st !! c).
Proof.
  intros Hl Hurl Hcode. cbv zeta.
  rewrite (delete_link_found st code l Hl). cbn [snd].
  destruct (post_link_outcome env (delete code st) (Some url) (Some code))
    as [[_ Herr] | (c & _ & _ & [(Hcc & _) | [Hcc _]] & Hresp & Hstore)].
  - exfalso. revert Herr. unfold post_link.
    assert (Hv : valid_target (Some url)) by by exists url.
    apply target_guard in Hv. rewrite Hv.
    destruct (CODE_REGEX_words code Hcode) as (_ & _ & ->).
    cbn [ToString]. rewrite Hcode. cbn [negb].
    unfold save_link, prisma_create. rewrite lookup_delete_eq. simpl. lia.
  - injection Hcc as <-. cbn [ToString] in *. rewrite Hresp, Hstore.
    split; [done|]. split; [apply lookup_insert_eq|]. split; [done|].
    intros c' Hne. by rewrite lookup_insert_ne, lookup_delete_ne.
  - destruct (CODE_REGEX_words code Hcode) as (_ & _ & Ht). congruence.
Qed.

Lemma delete_then_create_witness :
  response (post_link zero_env
              (delete_link (one_row (js "airocks7")) (js "airocks7")).2
              (Some (js "https://example.com/docs")) (Some (js "airocks7")))
  = Json 201 (JCreated msg_created
      (new_link zero_env (js "airocks7") (js "https://example.com/docs"))).
Proof.
  apply (delete_then_create zero_env (one_row (js "airocks7"))
           (js "https://example.com/docs") (js "airocks7")
           (docs_link (js "airocks7") 3 500)).
  - apply lookup_singleton_eq.
  - apply URL_REGEX_test_iff. vm_compute. reflexivity.
  - vm_compute. reflexivity.
Defined.

(** ** The registry as a whole *)

(** X7. No operation fails half-way: a request answered with a status of
    400 or more (400, 404, 409, 500) leaves the table exactly as it was;
    the table changes only under a 201, a 204 or a 302. *)
Theorem handle_error_keeps_store (req : Request) (st : gmap jsstring Link) :
  ((400 <= status (handle req st).1)%nat -> (handle req st).2 = st)
  /\ ((handle req st).2 <> st ->
      status (handle req st).1 = 201%nat
      \/ status (handle req st).1 = 204%nat
      \/ status (handle req st).1 = 302%nat).
Proof.
  assert (H : (handle req st).2 = st
              \/ (status (handle req st).1 = 201%nat
                  \/ status (handle req st).1 = 204%nat
                  \/ status (handle req st).1 = 302%nat)).
  { destruct req as [env t cc| |c|c|now c]; cbn [handle fst snd].
    - destruct (post_link_outcome env st t cc)
        as [[Hst _] | (c & _ & _ & _ & -> & _)]; [by left | by right; left].
    - by left.
    - by left.
    - unfold delete_link, prisma_delete. destruct (st !! c); [|by left].
      right; right; by left.
    - unfold redirect, prisma_update. destruct (st !! c); [|by left].
      right; right; by right. }
  split.
  - intros Herr. destruct H as [H | H]; [done | lia].
  - intros Hne. by destruct H.
Qed.

Lemma handle_error_keeps_store_witness :
  (handle (DeleteLink (js "nothere1")) (one_row (js "airocks7"))).2
  = one_row (js "airocks7").
Proof.
  apply (proj1 (handle_error_keeps_store (DeleteLink (js "nothere1"))
                  (one_row (js "airocks7")))).
  change (400 <= 404)%nat. lia.
Defined.

Lemma post_link_json (env : CreateEnv) (st : gmap jsstring Link)
    (target custom : option jsstring) :
  exists n b, response (post_link env st target custom) = Json n b.
Proof.
  unfold post_link, save_link, prisma_create.
  repeat match goal with
         | |- context [if ?b then _ else _] => destruct b
         | |- context [match ?x with _ => _ end] => destruct x
         end; simpl; eauto.
Qed.

Lemma handle_store_ok (req : Request) (st : gmap jsstring Link) :
  store_ok st -> store_ok (handle req st).2.
Proof.
  intros Hok. destruct req as [env t cc| |c|c|now c]; cbn [handle snd];
    [|done|done| |].
  - destruct (post_link_outcome env st t cc)
      as [[-> _] | (c & Hc & (url & -> & Hurl) & Hcode & _ & ->)]; [done|].
    intros c' l' Hl'.
    destruct (decide (c' = c)) as [->|Hne];
      [|rewrite lookup_insert_ne in Hl' by done; by apply Hok].
    rewrite lookup_insert_eq in Hl'. injection Hl' as <-.
    split; [done|]. split; [|done].
    destruct Hcode as [(_ & _ & Hre & _) | (_ & j & _ & -> & _)].
    + by apply CODE_REGEX_words in Hre as (_ & Hal & _).
    + apply generateRandomCode_alphanumeric.
  - unfold delete_link, prisma_delete.
    destruct (st !! c) eqn:Hc; cbn [snd]; [|done].
    intros c' l' [_ Hl']%lookup_delete_Some. by apply Hok.
  - unfold redirect, prisma_update.
    destruct (st !! c) as [l0|] eqn:Hc; cbn [snd]; [|done].
    intros c' l' Hl'.
    destruct (decide (c' = c)) as [->|Hne];
      [|rewrite lookup_insert_ne in Hl' by done; by apply Hok].
    rewrite lookup_insert_eq in Hl'. injection Hl' as <-.
    by apply (Hok c l0).
Qed.

Lemma handle_redirect_target (req : Request) (st : gmap jsstring Link)
    (n : nat) (u : jsstring) :
  (handle req st).1 = Redirect n u ->
  n = 302%nat /\ exists now c l, req = GetCode now c /\ st !! c = Some l
                   /\ u = targetUrl l.
Proof.
  destruct req as [env t cc| |c|c|now c]; cbn [handle fst].
  - destruct (post_link_json env st t cc) as (n' & b & ->). discriminate.
  - discriminate.
  - unfold get_link. destruct (findUnique st c); discriminate.
  - unfold delete_link, prisma_delete. destruct (st !! c); discriminate.
  - unfold redirect, prisma_update.
    destruct (st !! c) as [l|] eqn:Hc; cbn [fst]; [|discriminate].
    intros [= <- <-]. split; [done|]. by exists now, c, l.
Qed.

(** X8. The table keeps its shape under every sequence of requests: each
    row stays stored under its own [shortCode], every code in use is made
    of alphanumeric characters only, and every stored target obeys the rule
    of [URL_REGEX].  This holds in particular for every table reached from
    the empty one. *)
Theorem run_store_ok (reqs : list Request) (st : gmap jsstring Link) :
  store_ok st -> store_ok (run reqs st).2.
Proof.
  revert st. induction reqs as [|req reqs IH]; intros st Hok; [done|].
  cbn [run]. pose proof (handle_store_ok req st Hok) as Hok1.
  destruct (handle req st) as [r st1]. cbn [snd] in Hok1.
  specialize (IH st1 Hok1). by destruct (run reqs st1).
Qed.

Lemma run_store_ok_witness :
  store_ok (run [ PostLinks zero_env (Some (js "https://example.com/docs")) None;
                  GetCode 2000 (js "AAAAAA") ] ∅).2.
Proof.
  apply (run_store_ok
           [ PostLinks zero_env (Some (js "https://example.com/docs")) None;
             GetCode 2000 (js "AAAAAA") ] ∅).
  intros c l Hl. by rewrite lookup_empty in Hl.
Defined.

(** X9. Starting from a table of that shape (the empty one, for instance),
    every redirect the registry ever answers is a 302 whose location obeys
    the rule of [URL_REGEX]: no request can make it redirect to a target
    that was not validated at creation. *)
Theorem run_redirects_validated (reqs : list Request)
    (st : gmap jsstring Link) :
  store_ok st ->
  Forall (fun r => forall n u, r = Redirect n u -> n = 302%nat /\ url_rule u)
         (run reqs st).1.
Proof.
  revert st. induction reqs as [|req reqs IH]; intros st Hok; [constructor|].
  cbn [run]. pose proof (handle_store_ok req st Hok) as Hok1.
  pose proof (handle_redirect_target req st) as Hr.
  destruct (handle req st) as [r st1]. cbn [fst snd] in Hok1, Hr.
  specialize (IH st1 Hok1). destruct (run reqs st1) as [rs st2].
  cbn [fst] in *. constructor; [|done].
  intros n u ->. destruct (Hr n u eq_refl) as (-> & now & c & l & _ & Hl & ->).
  split; [done|]. by apply (Hok c l).
Qed.

Lemma run_redirects_validated_witness :
  Forall (fun r => forall n u, r = Redirect n u -> n = 302%nat /\ url_rule u)
    (run [ PostLinks zero_env (Some (js "https://example.com/docs")) None;
           GetCode 2000 (js "AAAAAA") ] ∅).1.
Proof.
  apply (run_redirects_validated
           [ PostLinks zero_env (Some (js "https://example.com/docs")) None;
             GetCode 2000 (js "AAAAAA") ] ∅).
  intros c l Hl. by rewrite lookup_empty in Hl.
Defined.

Lemma handle_row_exact (req : Request) (st : gmap jsstring Link)
    (code : jsstring) (l : Link) :
  st !! code = Some l ->
  req <> DeleteLink code ->
  (handle req st).2 !! code = Some (step_row code req l).
Proof.
  intros Hl Hreq. destruct req as [env t cc| |c|c|now c];
    cbn [handle snd step_row]; [|done|done| |].
  - destruct (post_link_outcome env st t cc)
      as [[-> _] | (c & Hc & _ & _ & _ & ->)]; [done|].
    rewrite lookup_insert_ne; [done | congruence].
  - unfold delete_link, prisma_delete.
    destruct (st !! c) eqn:Hc; cbn [snd]; [|done].
    rewrite lookup_delete_ne; [done | congruence].
  - unfold redirect, prisma_update. case_bool_decide as Hcode.
    + subst c. rewrite Hl. cbn [snd]. apply lookup_insert_eq.
    + destruct (st !! c); cbn [snd]; [|done]. by rewrite lookup_insert_ne.
Qed.

(** X10. Click accounting under any interleaving: over a sequence of
    requests of all kinds in which the code is not deleted, its row stays,
    its [totalClicks] rises by exactly the number of redirects on that code
    in the sequence, its [lastClickedAt] is the time of the last of them
    (or unchanged if there is none), and its [id], [shortCode], [targetUrl]
    and [createdAt] never change. *)
Theorem run_click_accounting (reqs : list Request) (st : gmap jsstring Link)
    (code : jsstring) (l : Link) :
  Forall (fun req => req <> DeleteLink code) reqs ->
  st !! code = Some l ->
  exists l',
    (run reqs st).2 !! code = Some l'
    /\ totalClicks l'
       = totalClicks l + N.of_nat (length (List.filter (is_redirect_on code) reqs))
    /\ lastClickedAt l' = last_click code reqs (lastClickedAt l)
    /\ (id l', shortCode l', targetUrl l', createdAt l')
       = (id l, shortCode l, targetUrl l, createdAt l).
Proof.
  revert st l. induction reqs as [|req reqs IH]; intros st l Hnodel Hl.
  - exists l. simpl. repeat split; [done | lia].
  - apply Forall_cons in Hnodel as [Hreq Hnodel]. cbn [run].
    pose proof (handle_row_exact req st code l Hl Hreq) as Hstep.
    destruct (handle req st) as [r st1]. cbn [snd] in Hstep.
    destruct (IH st1 (step_row code req l) Hnodel Hstep)
      as (l' & Hl' & Hclicks & Hlast & Hsame).
    destruct (run reqs st1) as [rs st2]. cbn [snd] in *.
    exists l'. split; [done|].
    unfold last_click in *. cbn [List.filter fold_left].
    destruct req as [env t cc| |c|c|now c]; cbn [step_row is_redirect_on] in *;
      try done.
    case_bool_decide; [|done].
    cbn [click totalClicks lastClickedAt id shortCode targetUrl createdAt length]
      in *.
    split; [lia | done].
Qed.

Lemma run_click_accounting_witness :
  exists l',
    (run [ GetCode 2000 (js "airocks7"); GetLinks;
           PostLinks zero_env (Some (js "https://example.com/docs")) None;
           GetCode 2005 (js "airocks7"); GetCode 2006 (js "AAAAAA") ]
         (one_row (js "airocks7"))).2 !! js "airocks7" = Some l'
    /\ totalClicks l' = 3 + 2
    /\ lastClickedAt l' = Some 2005.
Proof.
  destruct (run_click_accounting
              [ GetCode 2000 (js "airocks7"); GetLinks;
                PostLinks zero_env (Some (js "https://example.com/docs")) None;
                GetCode 2005 (js "airocks7"); GetCode 2006 (js "AAAAAA") ]
              (one_row (js "airocks7")) (js "airocks7")
              (docs_link (js "airocks7") 3 500))
    as (l' & H1 & H2 & H3 & _).
  - repeat constructor; discriminate.
  - apply lookup_singleton_eq.
  - exists l'. split; [exact H1|]. split; [exact H2 | exact H3].
Defined.

(** ** When the generator returns a valid code *)

Lemma remove_class_dashes (s : jsstring) :
  remove_class [CChar 45; CChar 95] s
  = List.filter (fun c => negb (dash_or_underscore c)) s.
Proof.
  unfold remove_class. apply filter_ext. intros c. f_equal.
  unfold class_matches, dash_or_underscore, canonicalize.
  cbn [flat_map item_chars app existsb andb].
  rewrite orb_false_r, (N.eqb_sym 45 c), (N.eqb_sym 95 c). done.
Qed.

Lemma filter_complement_length {A} (f : A -> bool) (l : list A) :
  (length (List.filter f l) + length (List.filter (fun x => negb (f x)) l)
   = length l)%nat.
Proof.
  induction l as [|x l IH]; [done|]. simpl. destruct (f x); simpl; lia.
Qed.

Lemma base64url_six (bs : list N) :
  length bs = 6%nat -> length (base64url bs) = 8%nat.
Proof.
  intros Hl. do 7 (destruct bs as [|? bs]; try discriminate Hl). reflexivity.
Qed.

(** X11. For six random octets, the generated code has
    [min (length drawn) (8 - k)] characters, where [k] is the number of
    [-] and [_] among the eight base64url characters of the octets; it
    passes [CODE_REGEX] exactly when [k] is at most 2, whatever length was
    drawn. *)
Theorem generateRandomCode_valid_iff (d : Draw) :
  length (bytes d) = 6%nat ->
  let k := length (List.filter dash_or_underscore (base64url (bytes d))) in
  length (generateRandomCode d) = Nat.min (N.to_nat (floor3 d + 6)) (8 - k)
  /\ (test CODE_REGEX (generateRandomCode d) = true <-> (k <= 2)%nat).
Proof.
  intros Hbytes. cbv zeta.
  pose proof (base64url_six _ Hbytes) as H8.
  pose proof (filter_complement_length dash_or_underscore (base64url (bytes d)))
    as Hsum. rewrite H8 in Hsum.
  assert (Hlen : length (generateRandomCode d)
                 = Nat.min (N.to_nat (floor3 d + 6))
                     (8 - length (List.filter dash_or_underscore
                                    (base64url (bytes d))))).
  { unfold generateRandomCode. rewrite length_take, remove_class_dashes.
    f_equal. lia. }
  split; [done|].
  rewrite (code_pattern_test CODE_REGEX) by done. rewrite Hlen. split.
  - intros [Hl _]. lia.
  - intros Hk. split; [lia | apply generateRandomCode_alphanumeric].
Qed.

Lemma generateRandomCode_valid_iff_witness :
  test CODE_REGEX
    (generateRandomCode {| floor3 := 1; bytes := [251; 240; 0; 0; 16; 131] |})
  = true.
Proof.
  apply (proj2 (generateRandomCode_valid_iff
                  {| floor3 := 1; bytes := [251; 240; 0; 0; 16; 131] |} eq_refl)).
  change (2 <= 2)%nat. lia.
Defined.

(** ** The dashboard form (public/app.js) *)

(** X12. The browser-side check lets a custom code through ([null])
    exactly when the field is empty or holds 6 to 8 alphanumeric
    characters; otherwise it returns its one error text. *)
Theorem validateCustomCode_spec (code : jsstring) :
  (validateCustomCode code = None
   <-> code = [] \/ ((6 <= length code <= 8)%nat /\ Forall alphanumeric code))
  /\ (validateCustomCode code <> None ->
      validateCustomCode code
      = Some "Custom code must be 6 to 8 alphanumeric characters."%string).
Proof.
  unfold validateCustomCode.
  pose proof (code_pattern_test APP_CODE_REGEX code eq_refl eq_refl) as Hre.
  destruct code as [|c code]; cbn [truthy andb].
  { split; [|done]. split; [by left | done]. }
  destruct (test APP_CODE_REGEX (c :: code)); cbn [negb].
  - split; [|done]. split; [|done]. intros _. right. by apply Hre.
  - split; [|done]. split; [done|].
    intros [Hnil | Hok]; [done|]. apply Hre in Hok. done.
Qed.

(** The answers of [POST /api/links], by name. *)
Lemma post_link_responses (env : CreateEnv) (st : gmap jsstring Link)
    (target custom : option jsstring) :
  let r := response (post_link env st target custom) in
  (r = InvalidTarget /\ ~ valid_target target)
  \/ (r = InvalidCode /\ truthy custom = true
      /\ test CODE_REGEX (ToString custom) = false)
  \/ r = GenerationExhausted
  \/ r = CodeConflict
  \/ exists l, r = Json 201 (JCreated msg_created l).
Proof.
  cbv zeta. unfold post_link.
  destruct (negb (truthy target) || negb (test URL_REGEX (ToString target)))
    eqn:Hguard.
  { left. split; [done|]. rewrite <- target_guard. congruence. }
  destruct (truthy custom) eqn:Hcc.
  - destruct (test CODE_REGEX (ToString custom)) eqn:Hcode; cbn [negb].
    2: { right; left. done. }
    destruct custom as [c|]; [|done]. unfold save_link, prisma_create.
    destruct (st !! c); [right; right; right; by left|].
    right; right; right; right. eauto.
  - destruct (retry_loop_spec st (draws env) 5 0 custom [])
      as (k & _ & _ & _ & Hend).
    destruct (foundUnique _); cbn [negb]; [|right; right; by left].
    destruct Hend as (j & _ & Hsc & Hfree). unfold save_link, prisma_create.
    rewrite Hsc, Hfree. right; right; right; right. eauto.
Qed.

(** X13. The form against the server.  The form refuses to send exactly
    when the code field is non-empty and fails the pattern.  When it does
    send, the server never answers with its own [InvalidCode]: the outcome
    is the success message with the short URL [BASE_URL/shortCode] of the
    link the server created, or one of the server's messages for an invalid
    target, a code in use or an exhausted generator; the catch branch is
    never taken. *)
Theorem handleFormSubmit_server (BASE_URL : jsstring) (env : CreateEnv)
    (st : gmap jsstring Link) (url code : jsstring) :
  let out := handleFormSubmit BASE_URL (fetch_post env st) url code in
  ((exists e, out = InvalidInput e)
   <-> code <> [] /\ test CODE_REGEX code = false)
  /\ out <> Failed err_customCode
  /\ out <> Critical
  /\ (forall u, out = Created u ->
        exists l, response (post_link env st (Some url) (Some code))
                  = Json 201 (JCreated msg_created l)
                  /\ u = BASE_URL ++ js "/" ++ shortCode l)
  /\ (forall e, out = Failed e ->
        e = err_targetUrl \/ e = err_conflict \/ e = err_generate).
Proof.
  cbv zeta. unfold handleFormSubmit, validateCustomCode, fetch_post.
  change (test APP_CODE_REGEX code) with (test CODE_REGEX code).
  destruct (truthy (Some code) && negb (test CODE_REGEX code)) eqn:Hcheck.
  { apply andb_true_iff in Hcheck as [Ht Hre%negb_true_iff].
    split; [|done]. split; [|by eauto].
    intros _. split; [by destruct code | done]. }
  assert (Hsent : ~ (code <> [] /\ test CODE_REGEX code = false)).
  { intros [Hne Hre]. rewrite Hre in Hcheck. by destruct code. }
  assert (Hfirst : forall out', (forall e, out' <> InvalidInput e) ->
            (exists e, out' = InvalidInput e)
            <-> code <> [] /\ test CODE_REGEX code = false).
  { intros out' Hout. split; [intros [e He]; by destruct (Hout e) | done]. }
  destruct (post_link_responses env st (Some url) (Some code))
    as [[-> _] | [(_ & Ht & Hre) | [-> | [-> | (l & ->)]]]]; cbn.
  - split; [by apply Hfirst|]. split; [done|]. split; [done|].
    split; [done|]. intros e [= <-]. by left.
  - exfalso. apply Hsent. cbn [ToString] in Hre. split; [by destruct code | done].
  - split; [by apply Hfirst|]. split; [done|]. split; [done|].
    split; [done|]. intros e [= <-]. by right; right.
  - split; [by apply Hfirst|]. split; [done|]. split; [done|].
    split; [done|]. intros e [= <-]. by right; left.
  - split; [by apply Hfirst|]. split; [done|]. split; [done|].
    split; [|done]. intros u [= <-]. eauto.
Qed.

(** ** Paths and their segments *)

Lemma split_ne (sep : N) (s : jsstring) : split sep s <> [].
Proof.
  destruct s as [|c s]; [done|]. simpl.
  destruct (c =? sep); [done|]. by destruct (split sep s).
Qed.

Lemma split_nosep (sep : N) (s : jsstring) : ~ In sep s -> split sep s = [s].
Proof.
  induction s as [|c s IH]; [done|]. intros Hno. simpl.
  destruct (N.eqb_spec c sep) as [->|Hne]; [by destruct Hno; left|].
  rewrite IH; [done|]. intros Hin. apply Hno. by right.
Qed.

Lemma split_app (sep : N) (a b : jsstring) :
  split sep (a ++ sep :: b) = split sep a ++ split sep b.
Proof.
  induction a as [|c a IH]; simpl.
  - by rewrite N.eqb_refl.
  - destruct (c =? sep); [by rewrite IH|]. rewrite IH.
    pose proof (split_ne sep a). by destruct (split sep a).
Qed.

(** The last segment of a path is what follows its last slash. *)
Lemma split_last (a b : jsstring) :
  ~ In 47 b -> last (split 47 (a ++ 47 :: b)) = Some b.
Proof.
  intros Hb. rewrite split_app, (split_nosep 47 b Hb). apply last_snoc.
Qed.

(** ** The stats page (public/stats.js) *)

(** X14. The stats script takes as code what follows the last slash of the
    pathname.  If that is empty (the pathname ends with a slash) it shows
    'Invalid link code in URL.' and fetches nothing; otherwise it fetches
    the statistics of exactly that segment. *)
Theorem stats_onload_code (get : jsstring -> Fetched) (dir seg : jsstring) :
  ~ In 47 seg ->
  (seg = [] ->
   stats_onload get (dir ++ 47 :: seg)
   = {| short_code_display := None; stats_details := DInvalidCode |})
  /\ (seg <> [] ->
      stats_onload get (dir ++ 47 :: seg) = fetchLinkStats get seg).
Proof.
  intros Hseg. unfold stats_onload.
  set (pathSegments := split 47 (dir ++ 47 :: seg)).
  replace (pathSegments !! (length pathSegments - 1)%nat) with (Some seg).
  2: { rewrite <- (split_last dir seg Hseg), last_lookup.
       by rewrite Nat.sub_1_r. }
  split.
  - by intros ->.
  - intros Hne. by destruct seg.
Qed.

Lemma stats_onload_code_witness :
  stats_onload (fun _ => FThrow) (js "/code/airocks7")
  = fetchLinkStats (fun _ => FThrow) (js "airocks7")
  /\ stats_onload (fun _ => FThrow) (js "/code/airocks7/")
     = {| short_code_display := None; stats_details := DInvalidCode |}.
Proof.
  split.
  - apply (proj2 (stats_onload_code (fun _ => FThrow) (js "/code") (js "airocks7")
                    ltac:(vm_compute; intuition discriminate))).
    discriminate.
  - apply (proj1 (stats_onload_code (fun _ => FThrow) (js "/code/airocks7") []
                    ltac:(vm_compute; tauto))).
    reflexivity.
Defined.

(** ** Routing *)

Lemma split_slash_join (segs : list jsstring) :
  segs <> [] ->
  Forall (fun seg => ~ In 47 seg) segs ->
  split 47 (slash_join segs) = segs.
Proof.
  induction segs as [|seg segs IH]; [done|]. intros _ Hall.
  apply Forall_cons in Hall as [Hseg Hall].
  destruct segs as [|seg' segs]; [by apply split_nosep|].
  change (slash_join (seg :: seg' :: segs))
    with (seg ++ 47 :: slash_join (seg' :: segs)).
  rewrite split_app, (split_nosep 47 seg Hseg), IH; done.
Qed.

(** The segments of [/a/b/c], and of [/a/b/c/]. *)
Lemma path_segments_join (segs : list jsstring) :
  Forall (fun seg => seg <> [] /\ ~ In 47 seg) segs ->
  path_segments (47 :: slash_join segs) = Some segs
  /\ (segs <> [] -> path_segments (47 :: slash_join segs ++ [47]) = Some segs).
Proof.
  intros Hall.
  assert (Hno : Forall (fun seg => ~ In 47 seg) segs)
    by (eapply Forall_impl; [done | by intros ? [_ ?]]).
  assert (Hlast : segs <> [] -> last segs <> Some []).
  { intros Hne Hl. apply last_Some in Hl as (pre & ->).
    apply Forall_app in Hall as [_ [[Hnil _] _]%Forall_cons]. done. }
  unfold path_segments. rewrite N.eqb_refl. split.
  - destruct segs as [|seg segs]; [done|].
    rewrite split_slash_join by done.
    rewrite bool_decide_eq_false_2; [done | by apply Hlast].
  - intros Hne.
    replace (slash_join segs ++ [47]) with (slash_join segs ++ 47 :: []) by done.
    rewrite split_app, split_slash_join by done.
    change (split 47 []) with [@nil N].
    rewrite bool_decide_eq_true_2 by apply last_snoc.
    by rewrite removelast_last.
Qed.

(** Which request each handler answers. *)
Lemma first_route_inv (m : Method) (segs ps : list jsstring) (h : Handler) :
  first_route routes m segs = Some (h, ps) ->
  match h with
  | HRoot => is_get m = true /\ segs = [] /\ ps = []
  | HStatsPage =>
      is_get m = true
      /\ exists a b, segs = [a; b] /\ map to_lower a = js "code"
                     /\ b <> [] /\ ps = [b]
  | HHealthz =>
      is_get m = true
      /\ exists a, segs = [a] /\ map to_lower a = js "healthz" /\ ps = []
  | HCreate =>
      m = POST
      /\ exists a b, segs = [a; b] /\ map to_lower a = js "api"
                     /\ map to_lower b = js "links" /\ ps = []
  | HList =>
      is_get m = true
      /\ exists a b, segs = [a; b] /\ map to_lower a = js "api"
                     /\ map to_lower b = js "links" /\ ps = []
  | HStats =>
      is_get m = true
      /\ exists a b c, segs = [a; b; c] /\ map to_lower a = js "api"
                       /\ map to_lower b = js "links" /\ c <> [] /\ ps = [c]
  | HDelete =>
      m = DELETE
      /\ exists a b c, segs = [a; b; c] /\ map to_lower a = js "api"
                       /\ map to_lower b = js "links" /\ c <> [] /\ ps = [c]
  | HRedirect =>
      is_get m = true
      /\ exists a, segs = [a] /\ a <> [] /\ map to_lower a <> js "healthz"
                   /\ ps = [a]
  end.
Proof.
  change (js "code") with (map to_lower (js "code")).
  change (js "healthz") with (map to_lower (js "healthz")).
  change (js "api") with (map to_lower (js "api")).
  change (js "links") with (map to_lower (js "links")).
  destruct m, segs as [|a [|b [|c [|d rest]]]];
    cbn [first_route routes match_segs method_matches is_get];
    repeat case_bool_decide; intros [= <- <-]; eauto 10.
Qed.

Lemma first_route_one (m : Method) (a : jsstring) :
  is_get m = true ->
  a <> [] ->
  first_route routes m [a]
  = if bool_decide (map to_lower a = js "healthz") then Some (HHealthz, [])
    else Some (HRedirect, [a]).
Proof.
  intros Hm Ha.
  change (js "healthz") with (map to_lower (js "healthz")).
  destruct m; try discriminate Hm;
    cbn [first_route routes match_segs method_matches];
    repeat case_bool_decide; done.
Qed.

Lemma first_route_two_three (m : Method) (a b c : jsstring) :
  is_get m = true ->
  c <> [] ->
  (map to_lower a = js "code" -> first_route routes m [a; c] = Some (HStatsPage, [c]))
  /\ (map to_lower a = js "api" -> map to_lower b = js "links" ->
      first_route routes m [a; b; c] = Some (HStats, [c])).
Proof.
  intros Hm Hc.
  change (js "code") with (map to_lower (js "code")).
  change (js "api") with (map to_lower (js "api")).
  change (js "links") with (map to_lower (js "links")).
  split; intros; destruct m; try discriminate Hm;
    cbn [first_route routes match_segs method_matches];
    repeat case_bool_decide; done.
Qed.

(** X15. [GET] or [HEAD] on [/healthz], in any letter case and with or
    without a trailing slash, is answered by the health check, whatever the
    table holds: the route is registered before [/:code], so the request
    never reaches the redirect handler and the table is not touched, even
    though [healthz] passes [CODE_REGEX] and can be a link's code. *)
Theorem dispatch_healthz (env : ServerEnv) (req : HttpRequest)
    (st : gmap jsstring Link) (seg : jsstring) :
  is_get (method req) = true ->
  is_static env (pathname req) = false ->
  path_segments (pathname req) = Some [seg] ->
  map to_lower seg = js "healthz" ->
  dispatch env req st = (Health, st)
  /\ test CODE_REGEX (js "healthz") = true.
Proof.
  intros Hm Hstatic Hsegs Hseg. split; [|by vm_compute].
  unfold dispatch. rewrite Hm, Hstatic, Hsegs. cbn [andb].
  rewrite first_route_one; [|done | by destruct seg].
  by rewrite bool_decide_eq_true_2.
Qed.

Lemma dispatch_healthz_witness :
  dispatch plain_server (get_request (js "/HealthZ/")) (one_row (js "healthz"))
  = (Health, one_row (js "healthz")).
Proof.
  apply (dispatch_healthz plain_server (get_request (js "/HealthZ/"))
           (one_row (js "healthz")) (js "HealthZ")).
  - reflexivity.
  - reflexivity.
  - vm_compute. reflexivity.
  - vm_compute. reflexivity.
Defined.

(** X16. [GET] or [HEAD] on a path of one non-empty segment other than
    [healthz], which no static file answers, runs the redirect handler on
    the decoded segment: a [HEAD] request counts a click like a [GET].  A
    segment that cannot be decoded is refused before the handler runs. *)
Theorem dispatch_redirect (env : ServerEnv) (req : HttpRequest)
    (st : gmap jsstring Link) (seg : jsstring) :
  is_get (method req) = true ->
  is_static env (pathname req) = false ->
  path_segments (pathname req) = Some [seg] ->
  seg <> [] ->
  map to_lower seg <> js "healthz" ->
  (forall code, decode_param env seg = Some code ->
     dispatch env req st
     = (Api (redirect (clock env) st code).1, (redirect (clock env) st code).2))
  /\ (decode_param env seg = None -> dispatch env req st = (DecodeFailed, st)).
Proof.
  intros Hm Hstatic Hsegs Hne Hseg. unfold dispatch.
  rewrite Hm, Hstatic, Hsegs. cbn [andb]. rewrite first_route_one by done.
  rewrite bool_decide_eq_false_2 by done. cbn [decode_all]. split.
  - intros code ->. cbn [invoke head ToString].
    by destruct (redirect (clock env) st code).
  - by intros ->.
Qed.

Lemma dispatch_redirect_witness :
  dispatch plain_server
    {| method := HEAD; pathname := js "/airocks7";
       body_targetUrl := None; body_customCode := None |}
    (one_row (js "airocks7"))
  = (Api (Redirect 302 (js "https://example.com/docs")),
     <[js "airocks7" := click 2000 (docs_link (js "airocks7") 3 500)]>
       (one_row (js "airocks7"))).
Proof.
  apply (proj1 (dispatch_redirect plain_server
                  {| method := HEAD; pathname := js "/airocks7";
                     body_targetUrl := None; body_customCode := None |}
                  (one_row (js "airocks7")) (js "airocks7")
                  eq_refl eq_refl
                  ltac:(vm_compute; reflexivity)
                  ltac:(discriminate)
                  ltac:(vm_compute; discriminate))
               (js "airocks7")).
  reflexivity.
Defined.

(** X17. The table changes only through three routes: [POST /api/links],
    [DELETE /api/links/:code], and [GET] or [HEAD] on a one-segment path
    other than [healthz].  Any other request, in particular every [GET]
    under [/api/] or [/code/] and every static file, leaves the table as it
    was: a short code cannot shadow an API path. *)
Theorem dispatch_store_changes (env : ServerEnv) (req : HttpRequest)
    (st : gmap jsstring Link) :
  (dispatch env req st).2 <> st ->
  exists segs,
    path_segments (pathname req) = Some segs
    /\ ((method req = POST
         /\ exists a b, segs = [a; b] /\ map to_lower a = js "api"
                        /\ map to_lower b = js "links")
        \/ (method req = DELETE
            /\ exists a b c, segs = [a; b; c] /\ map to_lower a = js "api"
                             /\ map to_lower b = js "links" /\ c <> [])
        \/ (is_get (method req) = true
            /\ is_static env (pathname req) = false
            /\ exists a, segs = [a] /\ a <> []
                         /\ map to_lower a <> js "healthz")).
Proof.
  unfold dispatch.
  destruct (is_get (method req) && is_static env (pathname req)) eqn:Hstatic;
    [done|].
  destruct (path_segments (pathname req)) as [segs|]; [|done].
  destruct (first_route routes (method req) segs) as [[h params]|] eqn:Hroute;
    [|done].
  destruct (decode_all (decode_param env) params) as [ps|]; [|done].
  apply first_route_inv in Hroute. intros Hchange. exists segs. split; [done|].
  destruct h; cbn [invoke snd] in Hchange; try done.
  - left. destruct Hroute as (Hm & a & b & -> & Ha & Hb & _). eauto 6.
  - right; left. destruct Hroute as (Hm & a & b & c & -> & Ha & Hb & Hc & _).
    eauto 8.
  - right; right. destruct Hroute as (Hm & a & -> & Ha & Hh & _).
    rewrite Hm in Hstatic. cbn [andb] in Hstatic. eauto 8.
Qed.

Lemma dispatch_store_changes_witness :
  exists segs,
    path_segments (js "/airocks7") = Some segs /\ segs = [js "airocks7"].
Proof.
  destruct (dispatch_store_changes plain_server (get_request (js "/airocks7"))
              (one_row (js "airocks7")))
    as (segs & Hsegs & [(Hm & _) | [(Hm & _) | (_ & _ & a & -> & _)]]).
  - vm_compute. intros H. discriminate H.
  - discriminate Hm.
  - discriminate Hm.
  - exists [a]. split; [exact Hsegs|]. vm_compute in Hsegs. by injection Hsegs as <-.
Defined.

(** X18. A path of three or more segments that is not [/api/links/:code]
    matches no route, for any method: the request gets Express's 404 and
    the table is untouched.  The dashboard's Stats links,
    [/pages/stats/<code>], are such paths. *)
Theorem dispatch_no_route (env : ServerEnv) (req : HttpRequest)
    (st : gmap jsstring Link) (segs : list jsstring) :
  is_get (method req) && is_static env (pathname req) = false ->
  path_segments (pathname req) = Some segs ->
  (3 <= length segs)%nat ->
  (forall a b c, segs = [a; b; c] ->
     ~ (map to_lower a = js "api" /\ map to_lower b = js "links")) ->
  dispatch env req st = (NoRoute, st).
Proof.
  intros Hstatic Hsegs Hlen Hnot. unfold dispatch. rewrite Hstatic, Hsegs.
  destruct (first_route routes (method req) segs) as [[h params]|] eqn:Hroute;
    [|done].
  exfalso. apply first_route_inv in Hroute.
  destruct h; destruct Hroute as (_ & Hroute).
  - destruct Hroute as (-> & _). simpl in Hlen. lia.
  - destruct Hroute as (a & b & -> & _). simpl in Hlen. lia.
  - destruct Hroute as (a & -> & _). simpl in Hlen. lia.
  - destruct Hroute as (a & b & -> & _). simpl in Hlen. lia.
  - destruct Hroute as (a & b & -> & _). simpl in Hlen. lia.
  - destruct Hroute as (a & b & c & -> & Ha & Hb & _). by eapply Hnot.
  - destruct Hroute as (a & b & c & -> & Ha & Hb & _). by eapply Hnot.
  - destruct Hroute as (a & -> & _). simpl in Hlen. lia.
Qed.

Lemma dispatch_no_route_witness :
  dispatch plain_server (get_request (js "/pages/stats/airocks7"))
    (one_row (js "airocks7"))
  = (NoRoute, one_row (js "airocks7")).
Proof.
  apply (dispatch_no_route plain_server (get_request (js "/pages/stats/airocks7"))
           (one_row (js "airocks7")) [js "pages"; js "stats"; js "airocks7"]).
  - reflexivity.
  - vm_compute. reflexivity.
  - simpl. lia.
  - intros a b c [= <- <- <-] [Ha _]. vm_compute in Ha. discriminate Ha.
Defined.

(** ** The stats page against the server *)

(** X19. For a code segment [seg] (non-empty, without slash) that decodes
    to [code], when no static file answers [/code/seg], [/code/seg/] or
    [/api/links/seg]: the server answers [/code/seg] and [/code/seg/] alike
    with [stats.html].  Loaded at [/code/seg], the script fetches
    [/api/links/seg], which the server answers with the stats lookup of
    [code]; the page then shows the row stored under [code], or 'Not
    Found' with the server's message when there is none.  Loaded at
    [/code/seg/], the same page shows 'Invalid link code in URL.' and asks
    the server nothing. *)
Theorem stats_page_flow (env : ServerEnv) (st : gmap jsstring Link)
    (get : jsstring -> Fetched) (seg code : jsstring) :
  seg <> [] ->
  ~ In 47 seg ->
  decode_param env seg = Some code ->
  is_static env (js "/code/" ++ seg) = false ->
  is_static env (js "/code/" ++ seg ++ js "/") = false ->
  is_static env (js "/api/links/" ++ seg) = false ->
  (forall r, (dispatch env (get_request (js "/api/links/" ++ seg)) st).1 = Api r ->
     get (js "/api/links/" ++ seg) = fetched_of r) ->
  dispatch env (get_request (js "/code/" ++ seg)) st = (SendFile "stats.html", st)
  /\ dispatch env (get_request (js "/code/" ++ seg ++ js "/")) st
     = (SendFile "stats.html", st)
  /\ dispatch env (get_request (js "/api/links/" ++ seg)) st
     = (Api (get_link st code), st)
  /\ stats_onload get (js "/code/" ++ seg)
     = match st !! code with
       | Some l => {| short_code_display := Some seg;
                      stats_details := DStats (JLink l) |}
       | None => {| short_code_display := Some (js "Not Found");
                    stats_details := DNotFound err_not_found |}
       end
  /\ stats_onload get (js "/code/" ++ seg ++ js "/")
     = {| short_code_display := None; stats_details := DInvalidCode |}.
Proof.
  intros Hne Hslash Hdecode Hstatic1 Hstatic2 Hstatic3 Hget.
  assert (Hcode : Forall (fun s => s <> [] /\ ~ In 47 s) [js "code"; seg]).
  { repeat constructor; try done. vm_compute. intuition discriminate. }
  assert (Hapi : Forall (fun s => s <> [] /\ ~ In 47 s) [js "api"; js "links"; seg]).
  { repeat constructor; try done; vm_compute; intuition discriminate. }
  destruct (path_segments_join _ Hcode) as [Hp1 Hp2].
  destruct (path_segments_join _ Hapi) as [Hp3 _].
  specialize (Hp2 ltac:(done)).
  change (47 :: slash_join [js "code"; seg]) with (js "/code/" ++ seg) in Hp1.
  replace (47 :: slash_join [js "code"; seg] ++ [47])
    with (js "/code/" ++ seg ++ js "/") in Hp2 by done.
  change (47 :: slash_join [js "api"; js "links"; seg])
    with (js "/api/links/" ++ seg) in Hp3.
  destruct (first_route_two_three GET (js "code") (js "links") seg eq_refl Hne)
    as [Hr1 _]. specialize (Hr1 eq_refl).
  destruct (first_route_two_three GET (js "api") (js "links") seg eq_refl Hne)
    as [_ Hr2]. specialize (Hr2 eq_refl eq_refl).
  assert (Hd3 : dispatch env (get_request (js "/api/links/" ++ seg)) st
                = (Api (get_link st code), st)).
  { unfold dispatch, get_request. cbn [method pathname is_get andb].
    rewrite Hstatic3, Hp3, Hr2. cbn [decode_all]. by rewrite Hdecode. }
  split.
  { unfold dispatch, get_request. cbn [method pathname is_get andb].
    rewrite Hstatic1, Hp1, Hr1. cbn [decode_all]. by rewrite Hdecode. }
  split.
  { unfold dispatch, get_request. cbn [method pathname is_get andb].
    rewrite Hstatic2, Hp2, Hr1. cbn [decode_all]. by rewrite Hdecode. }
  split; [done|]. split.
  - change (js "/code/" ++ seg) with (js "/code" ++ 47 :: seg).
    unfold stats_onload.
    set (pathSegments := split 47 (js "/code" ++ 47 :: seg)).
    replace (pathSegments !! (length pathSegments - 1)%nat) with (Some seg).
    2: { rewrite <- (split_last (js "/code") seg Hslash), last_lookup.
         by rewrite Nat.sub_1_r. }
    replace (truthy (Some seg)) with true by by destruct seg.
    cbn [ToString]. unfold fetchLinkStats.
    rewrite (Hget (get_link st code)) by by rewrite Hd3.
    unfold get_link, findUnique. by destruct (st !! code).
  - replace (js "/code/" ++ seg ++ js "/") with ((js "/code/" ++ seg) ++ 47 :: [])
      by by rewrite <- app_assoc.
    unfold stats_onload.
    set (pathSegments := split 47 ((js "/code/" ++ seg) ++ 47 :: [])).
    replace (pathSegments !! (length pathSegments - 1)%nat) with (Some (@nil N)).
    2: { rewrite <- (split_last (js "/code/" ++ seg) [] ltac:(by intros [])),
           last_lookup.
         by rewrite Nat.sub_1_r. }
    done.
Qed.

Lemma stats_page_flow_witness :
  stats_onload (fun _ => fetched_of (get_link (one_row (js "airocks7"))
                                       (js "airocks7")))
               (js "/code/airocks7")
  = {| short_code_display := Some (js "airocks7");
       stats_details := DStats (JLink (docs_link (js "airocks7") 3 500)) |}.
Proof.
  pose proof (stats_page_flow public_server (one_row (js "airocks7"))
                (fun _ => fetched_of (get_link (one_row (js "airocks7"))
                                        (js "airocks7")))
                (js "airocks7") (js "airocks7")) as H.
  destruct H as (_ & _ & _ & H & _).
  - discriminate.
  - vm_compute. intuition discriminate.
  - reflexivity.
  - vm_compute. reflexivity.
  - vm_compute. reflexivity.
  - vm_compute. reflexivity.
  - intros r Hr. vm_compute in Hr. injection Hr as <-. vm_compute. reflexivity.
  - exact H.
Defined.
